(** * Add-on deployment and teardown orchestration

    A shallow embedding of the three custom EKS Blueprints add-ons of the
    repository (lib/addons/argocdcore/argocdcore.ts, lib/addons/argocd/argocd.ts
    and lib/addons/argorollouts/argoRollouts.ts):

    - the inline Python [handler] that each add-on ships as a Lambda
      function and that the CloudFormation custom resource invokes on
      Create / Update / Delete;
    - the [deploy] method of each add-on, which adds constructs to the
      cluster scope, links them with [node.addDependency] and optionally
      registers the cleanup custom resource;
    - from the blueprint that uses the add-ons
      (lib/karpenter-construct/index.ts), its two add-on instances and the
      choice of the platform team. *)

From stdpp Require Import gmap strings list pretty.

Set Warnings "-clear-no-such-hyp".

Open Scope Z_scope.

(** ** A state-and-exception monad

    Both languages are embedded with explicit state passing.  A computation
    receives the state, returns the new state and either a value or the
    exception it raised; the state reached when an exception is raised is
    kept, as it is in Python and in JavaScript. *)

Definition M (S E A : Type) : Type := S → S * (E + A).

Definition ret {S E A} (a : A) : M S E A := λ s, (s, inr a).

Definition raise {S E A} (e : E) : M S E A := λ s, (s, inl e).

Definition bind {S E A B} (m : M S E A) (k : A → M S E B) : M S E B :=
  λ s, match m s with
       | (s', inr a) => k a s'
       | (s', inl e) => (s', inl e)
       end.

Definition modify {S E} (f : S → S) : M S E unit := λ s, (f s, inr tt).

Definition gets {S E A} (f : S → A) : M S E A := λ s, (s, inr (f s)).

(** [try: body except e => h e]: every exception of [body] is handled. *)
Definition try_except {S E A} (body : M S E A) (h : E → M S E A) : M S E A :=
  λ s, match body s with
       | (s', inl e) => h e s'
       | r => r
       end.

(** [try: body except <class> as e => h e]: only the exceptions selected by
    [sel] are handled, the others propagate. *)
Definition try_except_only {S E A} (sel : E → bool)
    (body : M S E A) (h : E → M S E A) : M S E A :=
  λ s, match body s with
       | (s', inl e) => if sel e then h e s' else (s', inl e)
       | r => r
       end.

Declare Scope prog_scope.
Delimit Scope prog_scope with prog.
Notation "'let*' x := m 'in' k" := (bind m (λ x, k))
  (at level 10, x name, m at level 100, k at level 200) : prog_scope.
Notation "m ;;; k" := (bind m (λ _, k))
  (at level 100, k at level 200, right associativity) : prog_scope.

(** ** The Lambda handlers (Python) *)

Module Py.

(** Values found in a CloudFormation custom-resource event: strings and
    the flat, string-keyed property bag. *)
Inductive obj :=
| Str (s : string)
| Dict (d : gmap string string).

Inductive exn :=
| KeyError (key : string)
| TypeError (msg : string)
| CalledProcessError (returncode : Z) (cmd : list string)
| OSError (msg : string).

(** What the operating system reports for a spawned command: an exit
    status, or a failure to start it at all (missing executable, ...). *)
Inductive proc_result :=
| Exited (code : Z)
| SpawnFailed (msg : string).

(** Pieces of an f-string. *)
Inductive frag :=
| Lit (s : string)
| Fmt (o : obj)
| FmtEvent (e : gmap string obj)
| FmtExn (e : exn).

Inductive level := INFO | WARNING | ERROR.

(** cfnresponse.SUCCESS / cfnresponse.FAILED *)
Inductive status := SUCCESS | FAILED.

(** What a run does that can be observed from outside. *)
Inductive effect :=
| Logged (lv : level) (msg : list frag)                  (* logger.info, .warning, .error *)
| Spawned (argv : list string) (r : proc_result)         (* subprocess.check_call *)
| Sent (st : status) (data : gmap string (list frag)).   (* cfnresponse.send *)

Record state (World : Type) := State {
  world : World;             (* the cluster and the host *)
  journal : list effect      (* the effects of the run so far, oldest first *)
}.
Arguments State {World} _ _.
Arguments world {World} _.
Arguments journal {World} _.

Definition init {World} (w : World) : state World := State w [].

(** The logger output, the subprocess.check_call trace and the
    cfnresponse.send calls of a run, each oldest first. *)
Definition log {World} (s : state World) : list (level * list frag) :=
  omap (λ e, match e with Logged lv msg => Some (lv, msg) | _ => None end) (journal s).

Definition calls {World} (s : state World) : list (list string * proc_result) :=
  omap (λ e, match e with Spawned argv r => Some (argv, r) | _ => None end) (journal s).

Definition sent {World} (s : state World) : list (status * gmap string (list frag)) :=
  omap (λ e, match e with Sent st data => Some (st, data) | _ => None end) (journal s).

(** The three inline scripts, one per add-on. *)
Inductive script := ArgoCDCoreScript | ArgoCDScript | ArgoRolloutsScript.

Definition is_CalledProcessError (e : exn) : bool :=
  match e with CalledProcessError _ _ => true | _ => false end.

Section Handlers.
Context {World : Type}.
(** The external command surface: running [argv] in a world gives the
    next world and what the process did. *)
Variable spawn : World → list string → World * proc_result.

Local Abbreviation Py A := (M (state World) exn A).
Local Open Scope prog_scope.

Definition logger (lv : level) (msg : list frag) : Py unit :=
  modify (λ s, State (world s) (journal s ++ [Logged lv msg])).

Definition cfnresponse_send (st : status) (data : gmap string (list frag))
  : Py unit :=
  modify (λ s, State (world s) (journal s ++ [Sent st data])).

(** event['key'] *)
Definition getitem (d : gmap string obj) (key : string) : Py obj :=
  match d !! key with
  | Some v => ret v
  | None => raise (KeyError key)
  end.

(** properties['key'] *)
Definition subscript (o : obj) (key : string) : Py string :=
  match o with
  | Dict d =>
      match d !! key with
      | Some v => ret v
      | None => raise (KeyError key)
      end
  | Str _ => raise (TypeError "string indices must be integers")
  end.

(** request_type == 'Delete' *)
Definition eq_str (o : obj) (s : string) : bool :=
  match o with
  | Str s' => bool_decide (s' = s)
  | Dict _ => false
  end.

(** subprocess.check_call(argv) *)
Definition check_call (argv : list string) : Py unit :=
  λ s,
    let '(w', r) := spawn (world s) argv in
    let s' := State w' (journal s ++ [Spawned argv r]) in
    match r with
    | Exited retcode =>
        if bool_decide (retcode = 0) then (s', inr tt)
        else (s', inl (CalledProcessError retcode argv))
    | SpawnFailed m => (s', inl (OSError m))
    end.

(** The argument vectors of the five commands the scripts run. *)
Definition update_kubeconfig (cluster_name region : string) : list string :=
  ["aws"; "eks"; "update-kubeconfig"; "--name"; cluster_name; "--region"; region].

Definition delete_namespace (namespace : string) : list string :=
  ["kubectl"; "delete"; "namespace"; namespace; "--ignore-not-found"].

Definition delete_all (namespace : string) : list string :=
  ["kubectl"; "delete"; "all"; "--all"; "-n"; namespace].

Definition delete_crds : list string :=
  ["kubectl"; "delete"; "crd"; "-l"; "app.kubernetes.io/part-of=argocd"].

Definition helm_uninstall (release_name namespace : string) : list string :=
  ["helm"; "uninstall"; release_name; "-n"; namespace].

(** argocdcore.ts, lines 209-264 *)
Definition ArgoCDCore_handler (event : gmap string obj) : Py unit :=
  logger INFO [Lit "Received event: "; FmtEvent event] ;;;
  try_except
    (let* request_type := getitem event "RequestType" in
     let* properties := getitem event "ResourceProperties" in
     let* response_data :=
       if eq_str request_type "Delete" then
         let* cluster_name := subscript properties "clusterName" in
         let* region := subscript properties "region" in
         let* namespace := subscript properties "namespace" in
         logger INFO [Lit "Starting ArgoCDCore cleanup in namespace "; Lit namespace] ;;;
         check_call (update_kubeconfig cluster_name region) ;;;
         try_except_only is_CalledProcessError
           (logger INFO [Lit "Deleting ArgoCD resources in namespace "; Lit namespace] ;;;
            check_call (delete_all namespace) ;;;
            logger INFO [Lit "Resources deleted successfully"])
           (λ e, logger WARNING [Lit "Error deleting resources: "; FmtExn e]) ;;;
         try_except_only is_CalledProcessError
           (logger INFO [Lit "Deleting ArgoCD CRDs"] ;;;
            check_call delete_crds ;;;
            logger INFO [Lit "CRDs deleted successfully"])
           (λ e, logger WARNING [Lit "Error deleting CRDs: "; FmtExn e]) ;;;
         try_except_only is_CalledProcessError
           (logger INFO [Lit "Deleting namespace "; Lit namespace] ;;;
            check_call (delete_namespace namespace) ;;;
            logger INFO [Lit "Namespace deleted successfully"])
           (λ e, logger WARNING [Lit "Error deleting namespace: "; FmtExn e]) ;;;
         logger INFO [Lit "ArgoCDCore cleanup completed"] ;;;
         ret ({[ "Message" := [Lit "ArgoCDCore uninstalled successfully"] ]}
                : gmap string (list frag))
       else
         logger INFO [Lit "Operation "; Fmt request_type; Lit " - no action required"] ;;;
         ret ({[ "Message" := [Lit "Operation "; Fmt request_type; Lit " processed"] ]}
                : gmap string (list frag)) in
     cfnresponse_send SUCCESS response_data)
    (λ e,
       logger ERROR [Lit "Error: "; FmtExn e] ;;;
       cfnresponse_send FAILED {[ "Error" := [FmtExn e] ]}).

(** argocd.ts and argoRollouts.ts, lines 187-236 of each.  The two
    scripts differ only in the product name that appears in their
    messages, which is the parameter [product]. *)
Definition Helm_handler (product : string) (event : gmap string obj) : Py unit :=
  logger INFO [Lit "Received event: "; FmtEvent event] ;;;
  try_except
    (let* request_type := getitem event "RequestType" in
     let* properties := getitem event "ResourceProperties" in
     let* response_data :=
       if eq_str request_type "Delete" then
         let* cluster_name := subscript properties "clusterName" in
         let* region := subscript properties "region" in
         let* namespace := subscript properties "namespace" in
         let* release_name := subscript properties "releaseName" in
         logger INFO [Lit ("Starting " +:+ product +:+ " uninstallation: ");
                      Lit release_name; Lit " in namespace "; Lit namespace] ;;;
         check_call (update_kubeconfig cluster_name region) ;;;
         try_except_only is_CalledProcessError
           (logger INFO [Lit "Executing helm uninstall "; Lit release_name;
                         Lit " -n "; Lit namespace] ;;;
            check_call (helm_uninstall release_name namespace) ;;;
            logger INFO [Lit "Helm uninstall completed successfully"])
           (λ e, logger WARNING [Lit "Error uninstalling Helm chart: "; FmtExn e]) ;;;
         try_except_only is_CalledProcessError
           (logger INFO [Lit "Deleting namespace "; Lit namespace] ;;;
            check_call (delete_namespace namespace) ;;;
            logger INFO [Lit "Namespace deleted successfully"])
           (λ e, logger WARNING [Lit "Error deleting namespace: "; FmtExn e]) ;;;
         logger INFO [Lit (product +:+ " cleanup completed")] ;;;
         ret ({[ "Message" := [Lit (product +:+ " uninstalled successfully")] ]}
                : gmap string (list frag))
       else
         logger INFO [Lit "Operation "; Fmt request_type; Lit " - no action required"] ;;;
         ret ({[ "Message" := [Lit "Operation "; Fmt request_type; Lit " processed"] ]}
                : gmap string (list frag)) in
     cfnresponse_send SUCCESS response_data)
    (λ e,
       logger ERROR [Lit "Error: "; FmtExn e] ;;;
       cfnresponse_send FAILED {[ "Error" := [FmtExn e] ]}).

Definition ArgoCD_handler := Helm_handler "ArgoCD".
Definition ArgoRollouts_handler := Helm_handler "Argo Rollouts".

(** index.handler of the Lambda function that carries script [sc]. *)
Definition handler (sc : script) : gmap string obj → Py unit :=
  match sc with
  | ArgoCDCoreScript => ArgoCDCore_handler
  | ArgoCDScript => ArgoCD_handler
  | ArgoRolloutsScript => ArgoRollouts_handler
  end.

(** One invocation of the Lambda function in world [w]. *)
Definition invoke (sc : script) (event : gmap string obj) (w : World)
  : state World :=
  (handler sc event (init w)).1.

End Handlers.
End Py.

(** ** The add-ons (TypeScript, AWS CDK) *)

Module Cdk.
Import Py.

Set Warnings "-register-all".

(** Manifests and chart values are opaque payloads: plain JSON data. *)
Inductive json :=
| JStr (s : string)
| JNum (n : Z)
| JArr (items : list json)
| JObj (fields : list (string * json)).

Record HelmChartOptions := {
  repository : string;
  chart : string;
  release : string;
  chart_namespace : string;
  chart_version : string;
  values : option json
}.

Record PolicyStatement := {
  actions : list string;
  resources : list string
}.

(** The constructs the add-ons create.  A construct refers to another one
    by its id within the cluster scope. *)
Inductive Resource :=
| KubernetesManifest (manifest : list json)
| HelmChart (options : HelmChartOptions)
| LambdaFunction (runtime handler : string) (code : script)
                 (timeout_minutes : Z) (rolePolicy : list PolicyStatement)
| Provider (onEventHandler : string)
| CustomResource (serviceToken : string) (properties : gmap string string)
                 (resourceType : string).

(** The cluster as a construct scope: its children in creation order and
    the edges recorded by [node.addDependency]; [(a, b)] reads "a depends
    on b". *)
Record Cluster := {
  clusterName : string;
  region : string;                        (* cdk.Stack.of(cluster).region *)
  children : list (string * Resource);
  dependencies : list (string * string)
}.

Abbreviation Js A := (M Cluster string A).
Local Open Scope prog_scope.

Definition ids (c : Cluster) : list string := (children c).*1.

(** new X(cluster, id, ...): construct names are unique within a scope. *)
Definition construct (id : string) (r : Resource) : Js string :=
  λ c,
    if bool_decide (id ∈ ids c) then
      (c, inl ("There is already a Construct with name '" +:+ id +:+ "'"))
    else
      ({| clusterName := clusterName c; region := region c;
          children := children c ++ [(id, r)];
          dependencies := dependencies c |}, inr id).

(** a.node.addDependency(b) *)
Definition addDependency (a b : string) : Js unit :=
  modify (λ c, {| clusterName := clusterName c; region := region c;
                  children := children c;
                  dependencies := dependencies c ++ [(a, b)] |}).

(** cluster.addManifest(id, manifest), which aws-cdk-lib defines as
    new KubernetesManifest(this, `manifest-${id}`, { cluster: this, manifest }) *)
Definition addManifest (id : string) (manifest : json) : Js string :=
  construct ("manifest-" +:+ id) (KubernetesManifest [manifest]).

(** cluster.addHelmChart(id, options), which aws-cdk-lib defines as
    new HelmChart(this, `chart-${id}`, { cluster: this, ...options }) *)
Definition addHelmChart (id : string) (options : HelmChartOptions) : Js string :=
  construct ("chart-" +:+ id) (HelmChart options).

(** fn.addToRolePolicy(statement): the statement is appended to the role
    policy of the function named [fn]. *)
Definition with_policy (fn : string) (st : PolicyStatement)
    (x : string * Resource) : string * Resource :=
  match x.2 with
  | LambdaFunction rt h code t pol =>
      if bool_decide (x.1 = fn)
      then (x.1, LambdaFunction rt h code t (pol ++ [st]))
      else x
  | _ => x
  end.

Definition addToRolePolicy (fn : string) (st : PolicyStatement) : Js unit :=
  modify (λ c, {| clusterName := clusterName c; region := region c;
                  children := with_policy fn st <$> children c;
                  dependencies := dependencies c |}).

(** The Lambda function and the provider around it; the three add-ons
    differ in the construct ids and in the script. *)
Definition createCleanupProvider (lambda_id provider_id : string) (code : script)
  : Js string :=
  let* fn := construct lambda_id
               (LambdaFunction "python3.9" "index.handler" code 15 []) in
  addToRolePolicy fn {| actions := ["eks:DescribeCluster"; "eks:ListClusters"];
                        resources := ["*"] |} ;;;
  let* provider := construct provider_id (Provider fn) in
  ret provider.

Module ArgoCDCoreAddOn.

Record Props := {
  namespace : option string;
  version : option string;
  cleanupEnabled : option bool
}.

Record t := { props : Props; this_cleanupEnabled : bool }.

(** constructor(private props: ArgoCDCoreAddOnProps = {}) *)
Definition new (props : Props) : t :=
  {| props := props; this_cleanupEnabled := default true (cleanupEnabled props) |}.

(** [now] is the value of Date.now(). *)
Definition setupCleanupMechanism (now : Z) (namespace : string) (resource : string)
  : Js string :=
  let* serviceToken :=
    createCleanupProvider "argocd-core-cleanup-lambda"
                          "argocd-core-cleanup-provider" ArgoCDCoreScript in
  let* cluster := gets (λ c, c) in
  let* cleanupCR :=
    construct "argocd-core-cleanup-cr"
      (CustomResource serviceToken
         (<["timestamp" := pretty now]>
          (<["namespace" := namespace]>
           (<["clusterName" := clusterName cluster]>
            (<["region" := region cluster]> ∅))))
         "Custom::ArgoCDCoreCleanup") in
  addDependency cleanupCR resource ;;;
  ret cleanupCR.

Definition deploy (this : t) (now : Z) : Js string :=
  let namespace := default "argocd" (namespace (props this)) in
  let version := default "v3.0.6" (version (props this)) in
  let* nsManifest :=
    addManifest "argocd-namespace"
      (JObj [("apiVersion", JStr "v1");
             ("kind", JStr "Namespace");
             ("metadata", JObj [("name", JStr namespace)])]) in
  let manifestUrl :=
    "https://raw.githubusercontent.com/argoproj/argo-cd/refs/tags/" +:+ version
      +:+ "/manifests/install.yaml" in
  let* installerSA :=
    addManifest "argocd-installer-sa"
      (JObj [("apiVersion", JStr "v1");
             ("kind", JStr "ServiceAccount");
             ("metadata", JObj [("name", JStr "argocd-installer");
                                ("namespace", JStr namespace)])]) in
  let* installerRoleBinding :=
    addManifest "argocd-installer-rb"
      (JObj [("apiVersion", JStr "rbac.authorization.k8s.io/v1");
             ("kind", JStr "ClusterRoleBinding");
             ("metadata", JObj [("name", JStr "argocd-installer-rb")]);
             ("subjects", JArr [JObj [("kind", JStr "ServiceAccount");
                                      ("name", JStr "argocd-installer");
                                      ("namespace", JStr namespace)]]);
             ("roleRef", JObj [("kind", JStr "ClusterRole");
                               ("name", JStr "cluster-admin");
                               ("apiGroup", JStr "rbac.authorization.k8s.io")])]) in
  let* applyArgoCD :=
    construct "argocd-apply"
      (KubernetesManifest
         [JObj [("apiVersion", JStr "batch/v1");
                ("kind", JStr "Job");
                ("metadata", JObj [("name", JStr "argocd-install-job");
                                   ("namespace", JStr namespace)]);
                ("spec", JObj
                   [("template", JObj
                      [("spec", JObj
                         [("serviceAccountName", JStr "argocd-installer");
                          ("containers", JArr
                             [JObj [("name", JStr "kubectl");
                                    ("image", JStr "bitnami/kubectl:latest");
                                    ("command", JArr [JStr "/bin/sh"; JStr "-c"]);
                                    ("args", JArr
                                       [JStr ("kubectl apply -f " +:+ manifestUrl
                                                +:+ " -n " +:+ namespace)])]]);
                          ("restartPolicy", JStr "Never")])]);
                    ("backoffLimit", JNum 0)])]]) in
  addDependency installerSA nsManifest ;;;
  addDependency installerRoleBinding installerSA ;;;
  addDependency applyArgoCD installerRoleBinding ;;;
  (if this_cleanupEnabled this
   then let* _ := setupCleanupMechanism now namespace applyArgoCD in ret tt
   else ret tt) ;;;
  ret applyArgoCD.

End ArgoCDCoreAddOn.

(** ArgoCDAddOn and ArgoRolloutsAddOn are the same class up to the
    string constants collected here. *)
Record HelmAddOnNames := {
  namespace_id : string;        (* id of the namespace manifest *)
  chart_id : string;            (* id of the Helm chart construct *)
  chart_name : string;
  release_name : string;
  default_namespace : string;
  default_version : string;
  cleanup_cr_id : string;
  cleanup_lambda_id : string;
  cleanup_provider_id : string;
  resource_type : string;
  cleanup_script : script
}.

Definition ArgoCD_names : HelmAddOnNames := {|
  namespace_id := "argocd-namespace";
  chart_id := "argocd";
  chart_name := "argo-cd";
  release_name := "argocd";
  default_namespace := "argocd";
  default_version := "5.51.4";
  cleanup_cr_id := "argocd-cleanup-cr";
  cleanup_lambda_id := "argocd-cleanup-lambda";
  cleanup_provider_id := "argocd-cleanup-provider";
  resource_type := "Custom::ArgoCDCleanup";
  cleanup_script := ArgoCDScript
|}.

Definition ArgoRollouts_names : HelmAddOnNames := {|
  namespace_id := "argo-rollouts-namespace";
  chart_id := "argo-rollouts";
  chart_name := "argo-rollouts";
  release_name := "argo-rollouts";
  default_namespace := "argo-rollouts";
  default_version := "2.32.0";
  cleanup_cr_id := "argo-rollouts-cleanup-cr";
  cleanup_lambda_id := "argo-rollouts-cleanup-lambda";
  cleanup_provider_id := "argo-rollouts-cleanup-provider";
  resource_type := "Custom::ArgoRolloutsCleanup";
  cleanup_script := ArgoRolloutsScript
|}.

Module HelmAddOn.

Record Props := {
  namespace : option string;
  version : option string;
  helm_values : option json;
  createNamespace : option bool;
  cleanupEnabled : option bool
}.

Record t := { props : Props; this_cleanupEnabled : bool }.

Definition new (props : Props) : t :=
  {| props := props; this_cleanupEnabled := default true (cleanupEnabled props) |}.

Section Class.
Variable names : HelmAddOnNames.

Definition setupCleanupMechanism (now : Z) (namespace : string) (chart : string)
  : Js string :=
  let* serviceToken :=
    createCleanupProvider (cleanup_lambda_id names) (cleanup_provider_id names)
                          (cleanup_script names) in
  let* cluster := gets (λ c, c) in
  let* cleanupCR :=
    construct (cleanup_cr_id names)
      (CustomResource serviceToken
         (<["timestamp" := pretty now]>
          (<["namespace" := namespace]>
           (<["releaseName" := release_name names]>
            (<["clusterName" := clusterName cluster]>
             (<["region" := region cluster]> ∅)))))
         (resource_type names)) in
  addDependency cleanupCR chart ;;;
  ret cleanupCR.

Definition deploy (this : t) (now : Z) : Js string :=
  let namespace := default (default_namespace names) (namespace (props this)) in
  let version := default (default_version names) (version (props this)) in
  let createNamespace := default true (createNamespace (props this)) in
  let options :=
    {| repository := "https://argoproj.github.io/argo-helm";
       chart := chart_name names;
       release := release_name names;
       chart_namespace := namespace;
       chart_version := version;
       values := helm_values (props this) |} in
  let* chart :=
    if createNamespace then
      let* nsManifest :=
        addManifest (namespace_id names)
          (JObj [("apiVersion", JStr "v1");
                 ("kind", JStr "Namespace");
                 ("metadata", JObj [("name", JStr namespace)])]) in
      let* chart := addHelmChart (chart_id names) options in
      addDependency chart nsManifest ;;;
      ret chart
    else
      addHelmChart (chart_id names) options in
  let mainResource := chart in
  let* mainResource :=
    if this_cleanupEnabled this
    then setupCleanupMechanism now namespace chart
    else ret mainResource in
  ret mainResource.

End Class.
End HelmAddOn.

(** lib/addons/argocd/argocd.ts *)
Module ArgoCDAddOn.
Definition setupCleanupMechanism := HelmAddOn.setupCleanupMechanism ArgoCD_names.
Definition deploy := HelmAddOn.deploy ArgoCD_names.
End ArgoCDAddOn.

(** lib/addons/argorollouts/argoRollouts.ts *)
Module ArgoRolloutsAddOn.
Definition setupCleanupMechanism := HelmAddOn.setupCleanupMechanism ArgoRollouts_names.
Definition deploy := HelmAddOn.deploy ArgoRollouts_names.
End ArgoRolloutsAddOn.

End Cdk.

Import Py Cdk.

(** ** Vocabulary of the statements about the handlers *)

Global Instance level_eq_dec : EqDecision level.
Proof. solve_decision. Defined.

Global Instance status_eq_dec : EqDecision status.
Proof. solve_decision. Defined.

Global Instance proc_result_eq_dec : EqDecision proc_result.
Proof. solve_decision. Defined.

(** [ev] is a Delete event whose property bag is the dictionary [d]. *)
Definition delete_event (ev : gmap string obj) (d : gmap string string) : Prop :=
  ev !! "RequestType" = Some (Str "Delete") ∧
  ev !! "ResourceProperties" = Some (Dict d).

(** The bag [d] carries the properties that the script [sc] reads. *)
Definition bag (sc : script) (d : gmap string string) (cn rg ns rel : string) : Prop :=
  d !! "clusterName" = Some cn ∧ d !! "region" = Some rg ∧
  d !! "namespace" = Some ns ∧
  (sc ≠ ArgoCDCoreScript → d !! "releaseName" = Some rel).

(** The commands that follow the connectivity step, in program order, each
    with the text its per-step handler logs in front of the exception. *)
Definition plan (sc : script) (ns rel : string) : list (string * list string) :=
  match sc with
  | ArgoCDCoreScript =>
      [("Error deleting resources: ", delete_all ns);
       ("Error deleting CRDs: ", delete_crds);
       ("Error deleting namespace: ", delete_namespace ns)]
  | _ =>
      [("Error uninstalling Helm chart: ", helm_uninstall rel ns);
       ("Error deleting namespace: ", delete_namespace ns)]
  end.

Definition cleanup_steps (sc : script) (ns rel : string) : list (list string) :=
  (plan sc ns rel).*2.

(** The exception [check_call argv] raises when the process did [r]. *)
Definition raised (argv : list string) (r : proc_result) : option exn :=
  match r with
  | Exited n => if bool_decide (n = 0) then None else Some (CalledProcessError n argv)
  | SpawnFailed m => Some (OSError m)
  end.

Definition spawn_failure (r : proc_result) : option string :=
  match r with SpawnFailed m => Some m | Exited _ => None end.

Definition at_level (lv : level) (l : list (level * list frag)) :=
  filter (λ e, e.1 = lv) l.

(** The data of the SUCCESS response of the Delete branch. *)
Definition uninstalled (sc : script) : gmap string (list frag) :=
  match sc with
  | ArgoCDCoreScript => {[ "Message" := [Lit "ArgoCDCore uninstalled successfully"] ]}
  | ArgoCDScript => {[ "Message" := [Lit "ArgoCD uninstalled successfully"] ]}
  | ArgoRolloutsScript => {[ "Message" := [Lit "Argo Rollouts uninstalled successfully"] ]}
  end.

(** What the top-level [except Exception] does with [e]. *)
Definition failure_log (e : exn) : level * list frag := (ERROR, [Lit "Error: "; FmtExn e]).
Definition failure_response (e : exn) : status * gmap string (list frag) :=
  (FAILED, {[ "Error" := [FmtExn e] ]}).

Section BestEffort.
Context {World : Type} (spawn : World → list string → World * proc_result).

(** Proof device: the Delete branch after the connectivity step, read as
    a list of independently failing steps.  It returns the last world, the
    trace of the steps that ran, the warnings they logged and the
    exception that stopped the sequence, if one did. *)
Fixpoint best_effort (steps : list (string * list string)) (w : World)
  : World * list (list string * proc_result) * list (level * list frag) * option exn :=
  match steps with
  | [] => (w, [], [], None)
  | (label, argv) :: rest =>
      let '(w', r) := spawn w argv in
      match r with
      | SpawnFailed m => (w', [(argv, r)], [], Some (OSError m))
      | Exited n =>
          let '(w'', tr, ws, e) := best_effort rest w' in
          (w'', (argv, r) :: tr,
           (if bool_decide (n = 0) then []
            else [(WARNING, [Lit label; FmtExn (CalledProcessError n argv)])]) ++ ws,
           e)
      end
  end.
End BestEffort.

Definition cpe_warning (e : level * list frag) : Prop :=
  ∃ label n c, n ≠ 0 ∧ e = (WARNING, [Lit label; FmtExn (CalledProcessError n c)]).

Global Instance obj_eq_dec : EqDecision obj.
Proof. solve_decision. Defined.

(** The outcome of a run in the words of the teardown state machine:
    Succeeded when SUCCESS is sent and no step has logged a warning,
    Degraded when SUCCESS is sent after a step has logged one, Failed when
    FAILED is sent. *)
Inductive terminal := Succeeded | Degraded | Failed.

Definition terminal_state {World} (s : state World) : option terminal :=
  match sent s with
  | [(SUCCESS, _)] =>
      Some (match at_level WARNING (log s) with [] => Succeeded | _ => Degraded end)
  | [(FAILED, _)] => Some Failed
  | _ => None
  end.

(** Proof device: in the journal [j], every command other than [c1] that
    exits with a non-zero status is followed at once by a warning that
    carries its CalledProcessError. *)
Fixpoint warned_at_once (c1 : list string) (j : list effect) : Prop :=
  match j with
  | [] => True
  | Spawned c (Exited n) :: rest =>
      (n ≠ 0 → c ≠ c1 →
       match rest with
       | Logged WARNING [Lit _; FmtExn e] :: _ => e = CalledProcessError n c
       | _ => False
       end) ∧ warned_at_once c1 rest
  | _ :: rest => warned_at_once c1 rest
  end.

(** ** Vocabulary of the statements about [deploy] *)

(** An add-on instance: the manifest-based add-on, or one of the chart-based
    add-ons with its constants. *)
Inductive addon :=
| Core (this : ArgoCDCoreAddOn.t)
| Helm (names : HelmAddOnNames) (this : HelmAddOn.t).

(** The [deploy] method of the ClusterAddOn interface. *)
Definition deploy (a : addon) (now : Z) : Js string :=
  match a with
  | Core this => ArgoCDCoreAddOn.deploy this now
  | Helm names this => HelmAddOn.deploy names this now
  end.

Definition cleanup_enabled (a : addon) : bool :=
  match a with
  | Core this => ArgoCDCoreAddOn.this_cleanupEnabled this
  | Helm _ this => HelmAddOn.this_cleanupEnabled this
  end.

(** The resources of the add-on in the order namespace, service account,
    role binding, workload or chart, under the names they have in the
    cluster scope: what [addManifest] and [addHelmChart] create is named
    manifest-<id> and chart-<id>. *)
Definition chain (a : addon) : list string :=
  match a with
  | Core _ =>
      ["manifest-argocd-namespace"; "manifest-argocd-installer-sa";
       "manifest-argocd-installer-rb"; "argocd-apply"]
  | Helm names this =>
      if default true (HelmAddOn.createNamespace (HelmAddOn.props this))
      then ["manifest-" +:+ namespace_id names; "chart-" +:+ chart_id names]
      else ["chart-" +:+ chart_id names]
  end.

(** The workload manifest or the chart release. *)
Definition primary_id (a : addon) : string :=
  match a with
  | Core _ => "argocd-apply"
  | Helm names _ => "chart-" +:+ chart_id names
  end.

(** The cleanup custom resource. *)
Definition registration_id (a : addon) : string :=
  match a with
  | Core _ => "argocd-core-cleanup-cr"
  | Helm names _ => cleanup_cr_id names
  end.

Fixpoint assoc (id : string) (l : list (string * Resource)) : option Resource :=
  match l with
  | [] => None
  | (id', r) :: l' => if bool_decide (id' = id) then Some r else assoc id l'
  end.

(** The construct named [id] in the cluster scope. *)
Definition child (c : Cluster) (id : string) : option Resource :=
  assoc id (children c).

(** The "kind" of the first object of a manifest, "HelmChart" for a chart. *)
Definition kind_of (r : Resource) : option string :=
  match r with
  | KubernetesManifest (JObj fields :: _) =>
      match (list_to_map fields : gmap string json) !! "kind" with
      | Some (JStr k) => Some k
      | _ => None
      end
  | HelmChart _ => Some "HelmChart"
  | CustomResource _ _ _ => Some "CustomResource"
  | _ => None
  end.

(** The nonce registered with the cleanup custom resource [id]. *)
Definition nonce (c : Cluster) (id : string) : option string :=
  match child c id with
  | Some (CustomResource _ properties _) => properties !! "timestamp"
  | _ => None
  end.

(** [x] comes before [y] in [order]. *)
Definition before (x y : string) (order : list string) : Prop :=
  ∃ i j, order !! i = Some x ∧ order !! j = Some y ∧ (i < j)%nat.

(** An order in which the deployment engine may create the constructs of
    the scope: each one once, and none before what it depends on. *)
Definition valid_schedule (c : Cluster) (order : list string) : Prop :=
  NoDup order ∧ (∀ id, id ∈ order ↔ id ∈ ids c) ∧
  ∀ a b, (a, b) ∈ dependencies c → before b a order.

(** Deletion runs through a creation order backwards. *)
Definition valid_teardown (c : Cluster) (order : list string) : Prop :=
  valid_schedule c (reverse order).

Definition empty_cluster : Cluster :=
  {| clusterName := "eks-builder-stack"; region := "us-east-1";
     children := []; dependencies := [] |}.

Definition default_core : ArgoCDCoreAddOn.t :=
  ArgoCDCoreAddOn.new {| ArgoCDCoreAddOn.namespace := None;
                         ArgoCDCoreAddOn.version := None;
                         ArgoCDCoreAddOn.cleanupEnabled := None |}.

Definition default_helm : HelmAddOn.t :=
  HelmAddOn.new {| HelmAddOn.namespace := None; HelmAddOn.version := None;
                   HelmAddOn.helm_values := None; HelmAddOn.createNamespace := None;
                   HelmAddOn.cleanupEnabled := None |}.

(** [c'] is [c] with more constructs and the dependency edges [edges]
    added; what [c] held under a name is still there. *)
Definition extends (c c' : Cluster) (edges : list (string * string)) : Prop :=
  clusterName c' = clusterName c ∧ region c' = region c ∧
  dependencies c' = dependencies c ++ edges ∧
  ∀ j y, child c j = Some y → child c' j = Some y.

(** [c'] holds the constructs of [c] followed by the new names [new], and
    names stay unique. *)
Definition grows (c c' : Cluster) (new : list string) : Prop :=
  ids c' = ids c ++ new ∧ (NoDup (ids c) → NoDup (ids c')).

Definition eks_policy : PolicyStatement :=
  {| actions := ["eks:DescribeCluster"; "eks:ListClusters"]; resources := ["*"] |}.

Definition core_edges (this : ArgoCDCoreAddOn.t) : list (string * string) :=
  [("manifest-argocd-installer-sa", "manifest-argocd-namespace");
   ("manifest-argocd-installer-rb", "manifest-argocd-installer-sa");
   ("argocd-apply", "manifest-argocd-installer-rb")]
  ++ (if ArgoCDCoreAddOn.this_cleanupEnabled this
      then [("argocd-core-cleanup-cr", "argocd-apply")] else []).

Definition helm_edges (names : HelmAddOnNames) (this : HelmAddOn.t)
  : list (string * string) :=
  (if default true (HelmAddOn.createNamespace (HelmAddOn.props this))
   then [("chart-" +:+ chart_id names, "manifest-" +:+ namespace_id names)] else [])
  ++ (if HelmAddOn.this_cleanupEnabled this
      then [(cleanup_cr_id names, "chart-" +:+ chart_id names)] else []).

(** The dependency edges [deploy] declares. *)
Definition edges (a : addon) : list (string * string) :=
  match a with
  | Core this => core_edges this
  | Helm names this => helm_edges names this
  end.

(** The names [deploy] gives to the constructs it creates, in creation
    order. *)
Definition new_ids (a : addon) : list string :=
  chain a ++
  (if cleanup_enabled a then
     match a with
     | Core _ => ["argocd-core-cleanup-lambda"; "argocd-core-cleanup-provider";
                  "argocd-core-cleanup-cr"]
     | Helm names _ => [cleanup_lambda_id names; cleanup_provider_id names;
                        cleanup_cr_id names]
     end
   else []).

(** ** Environments for concrete runs *)

(** A scripted host: the commands receive the results written on the tape,
    in order, and every command past the end of the tape exits with
    status 0. *)
Definition tape (w : list proc_result) (argv : list string)
  : list proc_result * proc_result :=
  match w with
  | [] => ([], Exited 0)
  | r :: w' => (w', r)
  end.

(** A simulated cluster: the namespaces and the Helm releases
    (namespace, name) that exist.  [installed] lists the executables of the
    host and [reachable] tells whether the cluster endpoint answers.  Helm
    refuses to uninstall a release that does not exist; deleting a namespace
    with --ignore-not-found removes it, with its releases, when it is there. *)
Record cluster_sim := {
  sim_namespaces : list string;
  sim_releases : list (string * string)
}.

Definition sim_spawn (installed : list string) (reachable : bool)
    (w : cluster_sim) (argv : list string) : cluster_sim * proc_result :=
  match argv with
  | [] => (w, SpawnFailed "empty command")
  | prog :: args =>
      if bool_decide (prog ∈ installed) then
        if bool_decide (prog = "aws") then
          (w, Exited (if reachable then 0 else 255))
        else
          match args with
          | [a1; a2; a3; a4] =>
              if bool_decide (prog = "helm" ∧ a1 = "uninstall" ∧ a3 = "-n") then
                if bool_decide ((a4, a2) ∈ sim_releases w) then
                  ({| sim_namespaces := sim_namespaces w;
                      sim_releases := filter (λ x, x ≠ (a4, a2)) (sim_releases w) |},
                   Exited 0)
                else (w, Exited 1)
              else if bool_decide (prog = "kubectl" ∧ a1 = "delete" ∧ a2 = "namespace"
                                   ∧ a4 = "--ignore-not-found") then
                ({| sim_namespaces := filter (λ x, x ≠ a3) (sim_namespaces w);
                    sim_releases := filter (λ x, x.1 ≠ a3) (sim_releases w) |},
                 Exited 0)
              else (w, Exited 0)
          | _ => (w, Exited 0)
          end
      else (w, SpawnFailed ("No such file or directory: " +:+ prog))
  end.

Definition sample_bag : gmap string string :=
  <["timestamp" := "1730000000000"]>
  (<["namespace" := "argocd"]>
   (<["releaseName" := "argocd"]>
    (<["clusterName" := "eks-builder-stack"]>
     (<["region" := "us-east-1"]> ∅)))).

Definition sample_event (request_type : string) : gmap string obj :=
  <["RequestType" := Str request_type]>
  (<["ResourceProperties" := Dict sample_bag]> ∅).

Definition sample_now : Z := 1730000000000.

(** A host with the three executables and a reachable cluster that holds
    the add-on. *)
Definition sim_host : cluster_sim → list string → cluster_sim * proc_result :=
  sim_spawn ["aws"; "helm"; "kubectl"] true.


Definition sim_cluster : cluster_sim :=
  {| sim_namespaces := ["argocd"; "kube-system"];
     sim_releases := [("argocd", "argocd")] |}.

Definition helm_missing : string := "[Errno 2] No such file or directory: 'helm'".
Definition kubectl_missing : string := "[Errno 2] No such file or directory: 'kubectl'".

(** ** Vocabulary of the further statements about the handlers *)

(** The properties a script reads from the bag of a Delete event, in the
    order in which it reads them. *)
Definition required_keys (sc : script) : list string :=
  match sc with
  | ArgoCDCoreScript => ["clusterName"; "region"; "namespace"]
  | _ => ["clusterName"; "region"; "namespace"; "releaseName"]
  end.

(** The first of [keys] that the bag [d] lacks. *)
Fixpoint first_missing (keys : list string) (d : gmap string string) : option string :=
  match keys with
  | [] => None
  | k :: keys' =>
      match d !! k with
      | Some _ => first_missing keys' d
      | None => Some k
      end
  end.

(** The Delete event that CloudFormation delivers for a custom resource
    registered with the properties [d]. *)
Definition delete_event_of (d : gmap string string) : gmap string obj :=
  <["RequestType" := Str "Delete"]> (<["ResourceProperties" := Dict d]> ∅).

(** ** Vocabulary of the further statements about [deploy] *)

(** [c'] holds the constructs of [c] followed by [new]: names that were
    free in [c] and that differ from one another. *)
Definition adds (c c' : Cluster) (new : list string) : Prop :=
  ids c' = ids c ++ new ∧ NoDup new ∧ ∀ id, id ∈ new → id ∉ ids c.




Definition lambda_id (a : addon) : string :=
  match a with
  | Core _ => "argocd-core-cleanup-lambda"
  | Helm names _ => cleanup_lambda_id names
  end.

Definition provider_id (a : addon) : string :=
  match a with
  | Core _ => "argocd-core-cleanup-provider"
  | Helm names _ => cleanup_provider_id names
  end.



(** ** The cluster blueprint (lib/karpenter-construct/index.ts) *)

Module KarpernterConstruct.

Record Props := {
  platformTeams : option (list string);
  platformTeamArns : option (list string)
}.

Record PlatformTeam := { name : string; userRoleArns : list string }.

(** props.x && props.x.length > 0 *)
Definition present (x : option (list string)) : bool :=
  match x with
  | Some l => bool_decide (0 < length l)%nat
  | None => false
  end.

(** index.ts, lines 209-230: the team given to blueprintBuilder.teams, if
    one is; [push] is read as appending to the list built so far. *)
Definition platformTeam (props : Props) : option PlatformTeam :=
  let userRoleArns := [] in
  let userRoleArns :=
    if present (platformTeams props)
    then userRoleArns ++ default [] (platformTeams props) else userRoleArns in
  let userRoleArns :=
    if present (platformTeamArns props)
    then userRoleArns ++ default [] (platformTeamArns props) else userRoleArns in
  if bool_decide (0 < length userRoleArns)%nat
  then Some {| name := "platform"; userRoleArns := userRoleArns |}
  else None.

(** index.ts, lines 166-170 and 197-200: the two add-ons of this
    repository in the add-on list of the blueprint, in the order of the
    list. *)
Definition argoRollouts : addon :=
  Helm ArgoRollouts_names
    (HelmAddOn.new {| HelmAddOn.namespace := Some "argo-rollouts";
                      HelmAddOn.version := Some "2.39.6";
                      HelmAddOn.helm_values := None;
                      HelmAddOn.createNamespace := Some true;
                      HelmAddOn.cleanupEnabled := None |}).

Definition argoCDCore : addon :=
  Core (ArgoCDCoreAddOn.new {| ArgoCDCoreAddOn.namespace := Some "argocd";
                               ArgoCDCoreAddOn.version := Some "v3.0.6";
                               ArgoCDCoreAddOn.cleanupEnabled := None |}).

End KarpernterConstruct.

(** A scope that already holds the constructs of another chart. *)
Definition busy_cluster : Cluster :=
  {| clusterName := "eks-builder-stack"; region := "us-east-1";
     children :=
       [("manifest-metrics-server-namespace",
         KubernetesManifest [JObj [("apiVersion", JStr "v1");
                                   ("kind", JStr "Namespace");
                                   ("metadata", JObj [("name", JStr "metrics-server")])]]);
        ("chart-metrics-server",
         HelmChart {| repository := "https://kubernetes-sigs.github.io/metrics-server";
                      chart := "metrics-server"; release := "metrics-server";
                      chart_namespace := "metrics-server"; chart_version := "3.12.1";
                      values := None |})];
     dependencies := [("chart-metrics-server", "manifest-metrics-server-namespace")] |}.


(** * Proofs *)

(** ** Facts about the handlers *)

Ltac run :=
  unfold invoke, handler, ArgoCD_handler, ArgoRollouts_handler, Helm_handler,
    ArgoCDCore_handler, check_call, logger, cfnresponse_send, getitem, subscript,
    try_except, try_except_only, bind, ret, raise, modify, init; simpl.

Section HandlerFacts.
Context {World : Type} (spawn : World → list string → World * proc_result).

(** The Delete branch of every script is the connectivity step followed by
    [best_effort] over the plan of the script. *)
Lemma handler_delete sc ev w d cn rg ns rel :
  delete_event ev d → bag sc d cn rg ns rel →
  let s := invoke spawn sc ev w in
  let c1 := update_kubeconfig cn rg in
  let '(w1, r1) := spawn w c1 in
  match raised c1 r1 with
  | Some e =>
      world s = w1 ∧ calls s = [(c1, r1)] ∧ at_level WARNING (log s) = [] ∧
      at_level ERROR (log s) = [failure_log e] ∧ sent s = [failure_response e]
  | None =>
      let '(w', tr, ws, e) := best_effort spawn (plan sc ns rel) w1 in
      world s = w' ∧ calls s = (c1, r1) :: tr ∧ at_level WARNING (log s) = ws ∧
      match e with
      | Some e => at_level ERROR (log s) = [failure_log e] ∧ sent s = [failure_response e]
      | None => at_level ERROR (log s) = [] ∧ sent s = [(SUCCESS, uninstalled sc)]
      end
  end.
Proof.
  intros [H1 H2] (Hc & Hr & Hn & Hrel).
  destruct sc; try (rewrite (Hrel ltac:(done)) in *); run; rewrite H1, H2; simpl;
    rewrite ?Hc, ?Hr, ?Hn; simpl; try rewrite Hrel by done; simpl.
  all: repeat (match goal with
               | |- context [spawn ?w ?c] =>
                   let n := fresh "n" in
                   destruct (spawn w c) as [? [n|?]]; simpl;
                   [destruct (bool_decide (n = 0)); simpl|]
               end); done.
Qed.

(** The trace follows the plan, and stops early only at a step that could
    not be started. *)
Lemma best_effort_trace steps w :
  let '(_, tr, ws, e) := best_effort spawn steps w in
  tr.*1 `prefix_of` steps.*2 ∧
  Forall cpe_warning ws ∧
  (∀ c n, (c, Exited n) ∈ tr → n ≠ 0 →
     ∃ label, (WARNING, [Lit label; FmtExn (CalledProcessError n c)]) ∈ ws) ∧
  match e with
  | None => tr.*1 = steps.*2 ∧ ∀ c m, (c, SpawnFailed m) ∉ tr
  | Some x => ∃ tr0 c m, x = OSError m ∧ tr = tr0 ++ [(c, SpawnFailed m)] ∧
                         ∀ c' m', (c', SpawnFailed m') ∉ tr0
  end.
Proof.
  revert w. induction steps as [|[label argv] rest IH]; intros w; simpl.
  - split_and!; [done|constructor|intros ?? []%elem_of_nil|done|intros ?? []%elem_of_nil].
  - destruct (spawn w argv) as [w' [n|m]].
    + specialize (IH w'). destruct (best_effort spawn rest w') as [[[w'' tr] ws] e].
      destruct IH as (Hp & Hw & Hl & He). split_and!.
      * simpl. by apply prefix_cons.
      * apply Forall_app. split; [|done]. case_bool_decide; constructor; [|constructor].
        by exists label, n, argv.
      * intros c k [Heq|Hin]%elem_of_cons Hk.
        -- injection Heq as -> ->. exists label. rewrite bool_decide_eq_false_2 by done.
           set_solver.
        -- destruct (Hl c k Hin Hk) as [l Hl']. exists l. set_solver.
      * destruct e as [x|].
        -- destruct He as (tr0 & c & m & -> & -> & Hno).
           exists ((argv, Exited n) :: tr0), c, m. split_and!; [done|done|].
           intros c' m' [?|?]%elem_of_cons; [done|]. by eapply Hno.
        -- destruct He as [Heq Hno]. split; [by rewrite fmap_cons, Heq|].
           intros c m [?|?]%elem_of_cons; [done|]. by eapply Hno.
    + split_and!.
      * simpl. apply prefix_cons, prefix_nil.
      * constructor.
      * intros c n [?|[]%elem_of_nil]%elem_of_cons; done.
      * exists [], argv, m. split_and!; [done|done|]. intros ?? []%elem_of_nil.
Qed.



(** Outside the Delete branch nothing is spawned. *)
Lemma handler_other sc ev w :
  ev !! "RequestType" ≠ Some (Str "Delete") →
  let s := invoke spawn sc ev w in
  world s = w ∧ calls s = [] ∧ at_level WARNING (log s) = [] ∧
  match ev !! "RequestType", ev !! "ResourceProperties" with
  | Some rt, Some _ =>
      log s = [(INFO, [Lit "Received event: "; FmtEvent ev]);
               (INFO, [Lit "Operation "; Fmt rt; Lit " - no action required"])] ∧
      sent s = [(SUCCESS, {[ "Message" := [Lit "Operation "; Fmt rt; Lit " processed"] ]})]
  | Some _, None => sent s = [failure_response (KeyError "ResourceProperties")]
  | None, _ => sent s = [failure_response (KeyError "RequestType")]
  end.
Proof.
  intros Hne. destruct sc; run.
  all: destruct (ev !! "RequestType") as [[rt|d]|]; simpl; try done.
  all: destruct (ev !! "ResourceProperties") as [p|]; simpl; try done.
  all: case_bool_decide; [congruence|done].
Qed.


(** On a Delete event a command that follows the connectivity step and
    exits with a non-zero status is logged by its per-step handler before
    anything else happens. *)
Lemma handler_delete_warned sc ev w d cn rg ns rel :
  delete_event ev d → bag sc d cn rg ns rel →
  warned_at_once (update_kubeconfig cn rg) (journal (invoke spawn sc ev w)).
Proof.
  intros [H1 H2] (Hc & Hr & Hn & Hrel).
  destruct sc; try (rewrite (Hrel ltac:(done)) in *); run; rewrite H1, H2; simpl;
    rewrite ?Hc, ?Hr, ?Hn; simpl; try rewrite Hrel by done; simpl.
  all: repeat (match goal with
               | |- context [spawn ?w ?c] =>
                   let n := fresh "n" in
                   destruct (spawn w c) as [? [n|?]]; simpl;
                   [case_bool_decide; simpl|]
               end); split_and?; done.
Qed.

(** When every command of the plan can be started, [best_effort] runs to
    the end of the plan. *)
Lemma best_effort_starts steps w :
  (∀ w' c, c ∈ steps.*2 → spawn_failure (spawn w' c).2 = None) →
  (best_effort spawn steps w).2 = None.
Proof.
  revert w. induction steps as [|[label argv] rest IH]; intros w H; simpl; [done|].
  pose proof (H w argv ltac:(set_solver)) as Hs.
  destruct (spawn w argv) as [w' [n|m]]; simpl in Hs; [|done].
  specialize (IH w' ltac:(set_solver)).
  by destruct (best_effort spawn rest w') as [[[??]?]?].
Qed.

End HandlerFacts.

Lemma warned_at_once_next c1 j pre c n post :
  warned_at_once c1 j → j = pre ++ Spawned c (Exited n) :: post → n ≠ 0 → c ≠ c1 →
  ∃ label post',
    post = Logged WARNING [Lit label; FmtExn (CalledProcessError n c)] :: post'.
Proof.
  intros H -> Hn Hc. induction pre as [|x pre IH]; simpl in H.
  - destruct H as [H _]. specialize (H Hn Hc).
    destruct post as [|[[] [|[] [|[] []]]| |] post]; try done. subst. eauto.
  - apply IH. destruct x as [| ? []|]; tauto.
Qed.





Lemma raised_None c r : raised c r = None → r = Exited 0.
Proof. destruct r as [n|m]; simpl; [case_bool_decide; naive_solver|done]. Qed.

Lemma raised_Some c r e : raised c r = Some e → r ≠ Exited 0.
Proof. intros H ->. simpl in H. done. Qed.


Section HandlerClaims.
Context {World : Type} (spawn : World → list string → World * proc_result).

(** C1 (as amended). A Delete event that carries the properties its script
    reads is answered exactly once; the answer is FAILED if and only if
    the update-kubeconfig step did not exit with status 0 or a later
    command could not be started at all.  A later command that exits with
    a non-zero status is logged as a warning and does not change the
    answer. *)
Theorem C1_failed_iff sc ev w d cn rg ns rel :
  delete_event ev d → bag sc d cn rg ns rel →
  let s := invoke spawn sc ev w in
  ∃ r1 rest st data,
    calls s = (update_kubeconfig cn rg, r1) :: rest ∧
    sent s = [(st, data)] ∧
    (st = FAILED ↔ r1 ≠ Exited 0 ∨ ∃ c m, (c, SpawnFailed m) ∈ rest) ∧
    (∀ c n, (c, Exited n) ∈ rest → n ≠ 0 →
       ∃ label, (WARNING, [Lit label; FmtExn (CalledProcessError n c)]) ∈ log s).
Proof.
  intros Hev Hbag s. pose proof (handler_delete spawn sc ev w d cn rg ns rel Hev Hbag) as H.
  simpl in H. fold s in H.
  destruct (spawn w (update_kubeconfig cn rg)) as [w1 r1].
  destruct (raised _ r1) as [e|] eqn:Hr.
  - destruct H as (_ & Hc & _ & _ & Hs).
    exists r1, [], FAILED, {[ "Error" := [FmtExn e] ]}. split_and!; [done|done| |].
    + split; [|done]. intros _. left. by eapply raised_Some.
    + intros ?? []%elem_of_nil.
  - apply raised_None in Hr as ->.
    pose proof (best_effort_trace spawn (plan sc ns rel) w1) as Ht.
    destruct (best_effort spawn (plan sc ns rel) w1) as [[[w' tr] ws] e].
    destruct H as (_ & Hc & Hw & He). destruct Ht as (_ & _ & Hl & Hx).
    assert (∀ c n, (c, Exited n) ∈ tr → n ≠ 0 →
       ∃ label, (WARNING, [Lit label; FmtExn (CalledProcessError n c)]) ∈ log s) as Hwarn.
    { intros c n Hin Hn. destruct (Hl c n Hin Hn) as [l Hl']. exists l.
      rewrite <- Hw in Hl'. unfold at_level in Hl'.
      by apply list_elem_of_filter in Hl' as [_ ?]. }
    destruct e as [x|].
    + destruct He as [_ Hs]. destruct Hx as (tr0 & c & m & -> & -> & _).
      exists (Exited 0), (tr0 ++ [(c, SpawnFailed m)]), FAILED, {[ "Error" := [FmtExn (OSError m)] ]}.
      split_and!; [done|done| |done].
      split; [|done]. intros _. right. exists c, m. set_solver.
    + destruct He as [_ Hs]. destruct Hx as [_ Hno].
      exists (Exited 0), tr, SUCCESS, (uninstalled sc). split_and!; [done|done| |done].
      split; [done|]. intros [?|(c & m & Hin)]; [done|]. by apply Hno in Hin.
Qed.

(** C2. A Create or Update event is answered at once with SUCCESS: the
    handler logs the event and that no action is required, spawns no
    command and leaves the world as it is.  Only a Delete event makes the
    handler spawn anything. *)
Theorem C2_create_update_noop sc ev w rt props :
  ev !! "RequestType" = Some (Str rt) →
  rt = "Create" ∨ rt = "Update" →
  ev !! "ResourceProperties" = Some props →
  let s := invoke spawn sc ev w in
  sent s = [(SUCCESS, {[ "Message" := [Lit "Operation "; Fmt (Str rt); Lit " processed"] ]})] ∧
  log s = [(INFO, [Lit "Received event: "; FmtEvent ev]);
           (INFO, [Lit "Operation "; Fmt (Str rt); Lit " - no action required"])] ∧
  calls s = [] ∧ world s = w ∧
  (∀ ev' w', calls (invoke spawn sc ev' w') ≠ [] ∨ world (invoke spawn sc ev' w') ≠ w' →
             ev' !! "RequestType" = Some (Str "Delete")).
Proof.
  intros Hrt Hcu Hp s.
  assert (ev !! "RequestType" ≠ Some (Str "Delete")) as Hne.
  { rewrite Hrt. destruct Hcu as [-> | ->]; done. }
  pose proof (handler_other spawn sc ev w Hne) as H. simpl in H. fold s in H.
  rewrite Hrt, Hp in H. destruct H as (Hw & Hc & _ & Hl & Hs).
  split_and!; try done.
  intros ev' w' Hcalls.
  destruct (decide (ev' !! "RequestType" = Some (Str "Delete"))) as [|Hne']; [done|].
  pose proof (handler_other spawn sc ev' w' Hne') as H'. simpl in H'.
  destruct H' as (Hw' & Hc' & _). destruct Hcalls; done.
Qed.

(** C5 (as amended). On a Delete event that carries the properties its
    script reads, update-kubeconfig is always spawned, and it is spawned
    first; when it does not exit with status 0 nothing else is spawned.
    The commands spawned after it are an initial part of the list release
    uninstall or resource deletion, CRD deletion where the script has one,
    namespace deletion, in that order.  When update-kubeconfig exits with
    status 0 and every later command can be started, all of them are
    spawned, whatever status each one exits with; a command that cannot be
    started is the last one spawned.  A later command that exits with a
    non-zero status is logged as a warning, with its CalledProcessError,
    before anything else happens - in particular before the next command
    is spawned. *)
Theorem C5_steps_in_order sc ev w d cn rg ns rel :
  delete_event ev d → bag sc d cn rg ns rel →
  let s := invoke spawn sc ev w in
  let c1 := update_kubeconfig cn rg in
  (∃ rest, calls s = (c1, (spawn w c1).2) :: rest ∧
           rest.*1 `prefix_of` cleanup_steps sc ns rel ∧
           ((spawn w c1).2 ≠ Exited 0 → rest = [])) ∧
  ((spawn w c1).2 = Exited 0 →
   (∀ w' c, c ∈ cleanup_steps sc ns rel → spawn_failure (spawn w' c).2 = None) →
   (calls s).*1 = c1 :: cleanup_steps sc ns rel) ∧
  (∀ i c m, calls s !! i = Some (c, SpawnFailed m) → length (calls s) = S i) ∧
  (∀ pre c n post,
     journal s = pre ++ Spawned c (Exited n) :: post → n ≠ 0 → c ≠ c1 →
     ∃ label post',
       post = Logged WARNING [Lit label; FmtExn (CalledProcessError n c)] :: post').
Proof.
  intros Hev Hbag s c1.
  pose proof (handler_delete spawn sc ev w d cn rg ns rel Hev Hbag) as H.
  simpl in H. fold s c1 in H.
  pose proof (best_effort_trace spawn (plan sc ns rel)) as Ht.
  split_and!.
  - destruct (spawn w c1) as [w1 r1]. simpl. destruct (raised _ r1) as [e|] eqn:Hr.
    + destruct H as (_ & Hc & _). exists []. split_and!; [done|apply prefix_nil|done].
    + specialize (Ht w1).
      destruct (best_effort spawn (plan sc ns rel) w1) as [[[w' tr] ws] e].
      destruct H as (_ & Hc & _), Ht as (Hp & _). exists tr. split_and!; [done|done|].
      intros Hne. by apply raised_None in Hr.
  - intros H0 Hstart. destruct (spawn w c1) as [w1 r1]. simpl in H0. subst r1.
    simpl in H. specialize (Ht w1).
    pose proof (best_effort_starts spawn (plan sc ns rel) w1 Hstart) as He.
    destruct (best_effort spawn (plan sc ns rel) w1) as [[[w' tr] ws] e].
    simpl in He. subst e. destruct H as (_ & Hc & _), Ht as (_ & _ & _ & Heq & _).
    by rewrite Hc, fmap_cons, Heq.
  - intros i c m Hi. destruct (spawn w c1) as [w1 r1].
    destruct (raised _ r1) as [e|] eqn:Hr.
    + destruct H as (_ & Hc & _). rewrite Hc in Hi |- *.
      by destruct i as [|i]; [|destruct i].
    + apply raised_None in Hr as ->. specialize (Ht w1).
      destruct (best_effort spawn (plan sc ns rel) w1) as [[[w' tr] ws] e].
      destruct H as (_ & Hc & _), Ht as (_ & _ & _ & Hx).
      rewrite Hc in Hi |- *. destruct i as [|i]; [done|]. simpl in Hi.
      assert ((c, SpawnFailed m) ∈ tr) as Hin by (apply list_elem_of_lookup; eauto).
      destruct e as [x|]; [|destruct Hx as [_ Hno]; by apply Hno in Hin].
      destruct Hx as (tr0 & c' & m' & _ & -> & Hno).
      destruct (decide (i < length tr0)%nat) as [Hlt|Hge].
      { rewrite lookup_app_l in Hi by done. exfalso. eapply Hno.
        apply list_elem_of_lookup; eauto. }
      rewrite lookup_app_r in Hi by lia.
      destruct (i - length tr0)%nat as [|k] eqn:Hk; [|by destruct k].
      simpl. rewrite length_app. simpl. lia.
  - intros pre c n post Hj Hn Hc.
    by eapply warned_at_once_next; [eapply handler_delete_warned|..].
Qed.

(** C10. On a Delete event, when a command after update-kubeconfig cannot
    be started (the process raises something other than
    CalledProcessError), no per-step handler catches it: it is the last
    command spawned, the top-level handler logs the error and answers
    FAILED with it.  The per-step handlers log CalledProcessError and
    nothing else. *)
Theorem C10_only_exit_status_absorbed sc ev w d cn rg ns rel i c m :
  delete_event ev d → bag sc d cn rg ns rel →
  let s := invoke spawn sc ev w in
  calls s !! S i = Some (c, SpawnFailed m) →
  calls s !! 0%nat = Some (update_kubeconfig cn rg, Exited 0) ∧
  length (calls s) = S (S i) ∧
  sent s = [(FAILED, {[ "Error" := [FmtExn (OSError m)] ]})] ∧
  at_level ERROR (log s) = [(ERROR, [Lit "Error: "; FmtExn (OSError m)])] ∧
  (∀ e, e ∈ at_level WARNING (log s) →
        ∃ label n c', n ≠ 0 ∧
          e = (WARNING, [Lit label; FmtExn (CalledProcessError n c')])).
Proof.
  intros Hev Hbag s Hi.
  pose proof (handler_delete spawn sc ev w d cn rg ns rel Hev Hbag) as H.
  simpl in H. fold s in H.
  destruct (spawn w (update_kubeconfig cn rg)) as [w1 r1].
  destruct (raised _ r1) as [e|] eqn:Hr.
  - destruct H as (_ & Hc & _). rewrite Hc in Hi. done.
  - apply raised_None in Hr as ->.
    pose proof (best_effort_trace spawn (plan sc ns rel) w1) as Ht.
    destruct (best_effort spawn (plan sc ns rel) w1) as [[[w' tr] ws] e].
    destruct H as (_ & Hc & Hw & He). destruct Ht as (_ & Hcpe & _ & Hx).
    rewrite Hc in Hi |- *. simpl in Hi.
    assert ((c, SpawnFailed m) ∈ tr) as Hin by (apply list_elem_of_lookup; eauto).
    destruct e as [x|]; [|destruct Hx as [_ Hno]; by apply Hno in Hin].
    destruct Hx as (tr0 & c' & m' & -> & -> & Hno). destruct He as [He Hs].
    destruct (decide (i < length tr0)%nat) as [Hlt|Hge].
    { rewrite lookup_app_l in Hi by done. exfalso. eapply Hno.
      apply list_elem_of_lookup; eauto. }
    rewrite lookup_app_r in Hi by lia.
    destruct (i - length tr0)%nat as [|k] eqn:Hk; [|done].
    injection Hi as -> ->.
    split_and!; [done| |done|done|].
    + simpl. rewrite length_app. simpl. lia.
    + rewrite Hw. intros e He'. by eapply Forall_forall in Hcpe.
Qed.

End HandlerClaims.



(** On the simulated cluster the second delivery finds the release gone:
    Helm exits with status 1, which is logged, and the answer is SUCCESS
    again. *)
Example sim_redelivery :
  let s1 := invoke sim_host ArgoCDScript (sample_event "Delete") sim_cluster in
  let s2 := invoke sim_host ArgoCDScript (sample_event "Delete") (world s1) in
  world s1 = {| sim_namespaces := ["kube-system"]; sim_releases := [] |} ∧
  world s2 = world s1 ∧
  (sent s1).*1 = [SUCCESS] ∧ (sent s2).*1 = [SUCCESS] ∧
  (calls s2).*2 = [Exited 0; Exited 1; Exited 0] ∧
  at_level WARNING (log s1) = [] ∧
  at_level WARNING (log s2) =
    [(WARNING, [Lit "Error uninstalling Helm chart: ";
                FmtExn (CalledProcessError 1 ["helm"; "uninstall"; "argocd"; "-n"; "argocd"])])].
Proof. vm_compute. done. Qed.


(** The commands of a plan can be started on a simulated host that has
    the executables the plan names. *)
Lemma sim_starts installed reachable sc ns rel w c :
  "kubectl" ∈ installed → (sc ≠ ArgoCDCoreScript → "helm" ∈ installed) →
  c ∈ cleanup_steps sc ns rel →
  spawn_failure (sim_spawn installed reachable w c).2 = None.
Proof.
  intros Hk Hh Hc.
  assert (∃ prog args, c = prog :: args ∧ prog ∈ installed ∧ prog ≠ "aws")
    as (prog & args & -> & Hp & Haws).
  { destruct sc; simpl in Hc; repeat (apply elem_of_cons in Hc as [->|Hc]);
      try (by apply elem_of_nil in Hc); eexists _, _;
      (split_and!; [reflexivity|auto|done]). }
  unfold sim_spawn.
  rewrite bool_decide_eq_true_2 by done. rewrite bool_decide_eq_false_2 by done.
  destruct args as [|a1 [|a2 [|a3 [|a4 [|]]]]]; simpl; try done.
  repeat case_bool_decide; done.
Qed.


(** The namespace deletion is the last command, and its exit status does
    not change the answer: here it exits with status 1. *)
Example namespace_failure_absorbed :
  let s := invoke tape ArgoRolloutsScript (sample_event "Delete")
             [Exited 0; Exited 0; Exited 1] in
  last (calls s)
  = Some (["kubectl"; "delete"; "namespace"; "argocd"; "--ignore-not-found"], Exited 1) ∧
  (sent s).*1 = [SUCCESS] ∧ terminal_state s = Some Degraded.
Proof. vm_compute. done. Qed.

(** The journal of a run of the manifest-based script in which the
    resource deletion and the CRD deletion exit with status 1. *)
Example core_journal :
  journal (invoke tape ArgoCDCoreScript (sample_event "Delete")
             [Exited 0; Exited 1; Exited 1; Exited 0])
  = [Logged INFO [Lit "Received event: "; FmtEvent (sample_event "Delete")];
     Logged INFO [Lit "Starting ArgoCDCore cleanup in namespace "; Lit "argocd"];
     Spawned (update_kubeconfig "eks-builder-stack" "us-east-1") (Exited 0);
     Logged INFO [Lit "Deleting ArgoCD resources in namespace "; Lit "argocd"];
     Spawned (delete_all "argocd") (Exited 1);
     Logged WARNING [Lit "Error deleting resources: ";
                     FmtExn (CalledProcessError 1 (delete_all "argocd"))];
     Logged INFO [Lit "Deleting ArgoCD CRDs"];
     Spawned delete_crds (Exited 1);
     Logged WARNING [Lit "Error deleting CRDs: ";
                     FmtExn (CalledProcessError 1 delete_crds)];
     Logged INFO [Lit "Deleting namespace "; Lit "argocd"];
     Spawned (delete_namespace "argocd") (Exited 0);
     Logged INFO [Lit "Namespace deleted successfully"];
     Logged INFO [Lit "ArgoCDCore cleanup completed"];
     Sent SUCCESS {[ "Message" := [Lit "ArgoCDCore uninstalled successfully"] ]}].
Proof. vm_compute. done. Qed.

(** Counterexample to C1 as stated.  update-kubeconfig exits with status 0 and helm is
    not installed: the handler answers FAILED although the connectivity
    step succeeded. *)
Lemma C1_counterexample :
  let s := invoke tape ArgoCDScript (sample_event "Delete")
             [Exited 0; SpawnFailed helm_missing] in
  calls s !! 0%nat = Some (update_kubeconfig "eks-builder-stack" "us-east-1", Exited 0) ∧
  (sent s).*1 = [FAILED].
Proof. vm_compute. done. Qed.

(** Counterexample to C5 as stated.  The resource deletion of the manifest-based
    script cannot be started: no per-step handler logs a warning, and the
    CRD deletion and the namespace deletion are never spawned. *)
Lemma C5_counterexample :
  let s := invoke tape ArgoCDCoreScript (sample_event "Delete")
             [Exited 0; SpawnFailed kubectl_missing] in
  (calls s).*1 = [update_kubeconfig "eks-builder-stack" "us-east-1"; delete_all "argocd"] ∧
  at_level WARNING (log s) = [] ∧
  (delete_crds ∉ fst <$> calls s) ∧
  (delete_namespace "argocd" ∉ fst <$> calls s).
Proof.
  split_and!; [vm_compute; reflexivity|vm_compute; reflexivity| |];
    apply (bool_decide_unpack _); vm_compute; exact I.
Qed.

(** ** Concrete runs of the handlers *)

Lemma sample_delete_event : delete_event (sample_event "Delete") sample_bag.
Proof. split; vm_compute; reflexivity. Defined.

Lemma sample_bag_complete sc :
  bag sc sample_bag "eks-builder-stack" "us-east-1" "argocd" "argocd".
Proof. split_and!; [vm_compute; reflexivity..|intros _; vm_compute; reflexivity]. Defined.

(** Witness for C1: the chart-based script when helm exits with status 1. *)
Lemma C1_failed_iff_witness :
  delete_event (sample_event "Delete") sample_bag ∧
  bag ArgoCDScript sample_bag "eks-builder-stack" "us-east-1" "argocd" "argocd" ∧
  let s := invoke tape ArgoCDScript (sample_event "Delete") [Exited 0; Exited 1] in
  ∃ r1 rest st data,
    calls s = (update_kubeconfig "eks-builder-stack" "us-east-1", r1) :: rest ∧
    sent s = [(st, data)] ∧
    (st = FAILED ↔ r1 ≠ Exited 0 ∨ ∃ c m, (c, SpawnFailed m) ∈ rest) ∧
    (∀ c n, (c, Exited n) ∈ rest → n ≠ 0 →
       ∃ label, (WARNING, [Lit label; FmtExn (CalledProcessError n c)]) ∈ log s).
Proof.
  split_and!; [exact sample_delete_event|exact (sample_bag_complete _)|].
  exact (C1_failed_iff tape ArgoCDScript (sample_event "Delete") [Exited 0; Exited 1]
           sample_bag _ _ _ _ sample_delete_event (sample_bag_complete _)).
Defined.

(** Witness for C2: an Update event on the simulated cluster. *)
Lemma C2_create_update_noop_witness :
  sample_event "Update" !! "RequestType" = Some (Str "Update") ∧
  ("Update" = "Create" ∨ "Update" = "Update") ∧
  sample_event "Update" !! "ResourceProperties" = Some (Dict sample_bag) ∧
  let s := invoke sim_host ArgoRolloutsScript (sample_event "Update") sim_cluster in
  sent s = [(SUCCESS, {[ "Message" := [Lit "Operation "; Fmt (Str "Update");
                                      Lit " processed"] ]})] ∧
  log s = [(INFO, [Lit "Received event: "; FmtEvent (sample_event "Update")]);
           (INFO, [Lit "Operation "; Fmt (Str "Update"); Lit " - no action required"])] ∧
  calls s = [] ∧ world s = sim_cluster ∧
  (∀ ev' w', calls (invoke sim_host ArgoRolloutsScript ev' w') ≠ []
             ∨ world (invoke sim_host ArgoRolloutsScript ev' w') ≠ w' →
             ev' !! "RequestType" = Some (Str "Delete")).
Proof.
  assert (sample_event "Update" !! "RequestType" = Some (Str "Update")) as H1
    by (vm_compute; reflexivity).
  assert (sample_event "Update" !! "ResourceProperties" = Some (Dict sample_bag)) as H2
    by (vm_compute; reflexivity).
  split_and!; [exact H1|right; reflexivity|exact H2|].
  exact (C2_create_update_noop sim_host ArgoRolloutsScript (sample_event "Update")
           sim_cluster "Update" (Dict sample_bag) H1 (or_intror eq_refl) H2).
Defined.


(** Witness for C5: the chart-based script on the simulated host, in a
    cluster where the release is already gone, so that Helm exits with
    status 1. *)
Lemma C5_steps_in_order_witness :
  delete_event (sample_event "Delete") sample_bag ∧
  bag ArgoCDScript sample_bag "eks-builder-stack" "us-east-1" "argocd" "argocd" ∧
  let w := {| sim_namespaces := ["argocd"]; sim_releases := [] |} in
  let s := invoke sim_host ArgoCDScript (sample_event "Delete") w in
  let c1 := update_kubeconfig "eks-builder-stack" "us-east-1" in
  (∃ rest, calls s = (c1, (sim_host w c1).2) :: rest ∧
           rest.*1 `prefix_of` cleanup_steps ArgoCDScript "argocd" "argocd" ∧
           ((sim_host w c1).2 ≠ Exited 0 → rest = [])) ∧
  (calls s).*1 = [c1; helm_uninstall "argocd" "argocd"; delete_namespace "argocd"] ∧
  (∀ i c m, calls s !! i = Some (c, SpawnFailed m) → length (calls s) = S i) ∧
  (∀ pre c n post,
     journal s = pre ++ Spawned c (Exited n) :: post → n ≠ 0 → c ≠ c1 →
     ∃ label post',
       post = Logged WARNING [Lit label; FmtExn (CalledProcessError n c)] :: post').
Proof.
  pose proof (C5_steps_in_order sim_host ArgoCDScript (sample_event "Delete")
                {| sim_namespaces := ["argocd"]; sim_releases := [] |}
                sample_bag _ _ _ _ sample_delete_event (sample_bag_complete _))
    as (H1 & H2 & H3 & H4).
  split; [exact sample_delete_event|]. split; [exact (sample_bag_complete _)|].
  split; [exact H1|]. split; [|split; [exact H3|exact H4]].
  apply H2.
  - vm_compute. reflexivity.
  - intros w' c.
    apply sim_starts; [|intros _]; apply (bool_decide_unpack _); vm_compute; exact I.
Defined.

(** Witness for C10: kubectl is missing when the namespace is to be
    deleted. *)
Lemma C10_only_exit_status_absorbed_witness :
  delete_event (sample_event "Delete") sample_bag ∧
  bag ArgoRolloutsScript sample_bag "eks-builder-stack" "us-east-1" "argocd" "argocd" ∧
  let s := invoke tape ArgoRolloutsScript (sample_event "Delete")
             [Exited 0; Exited 1; SpawnFailed kubectl_missing] in
  calls s !! 2%nat = Some (delete_namespace "argocd", SpawnFailed kubectl_missing) ∧
  calls s !! 0%nat = Some (update_kubeconfig "eks-builder-stack" "us-east-1", Exited 0) ∧
  length (calls s) = 3%nat ∧
  sent s = [(FAILED, {[ "Error" := [FmtExn (OSError kubectl_missing)] ]})] ∧
  at_level ERROR (log s) = [(ERROR, [Lit "Error: "; FmtExn (OSError kubectl_missing)])] ∧
  (∀ e, e ∈ at_level WARNING (log s) →
        ∃ label n c', n ≠ 0 ∧
          e = (WARNING, [Lit label; FmtExn (CalledProcessError n c')])).
Proof.
  assert (calls (invoke tape ArgoRolloutsScript (sample_event "Delete")
                   [Exited 0; Exited 1; SpawnFailed kubectl_missing]) !! 2%nat
          = Some (delete_namespace "argocd", SpawnFailed kubectl_missing)) as Hi
    by (vm_compute; reflexivity).
  split_and!; [exact sample_delete_event|exact (sample_bag_complete _)|].
  split; [exact Hi|].
  exact (C10_only_exit_status_absorbed tape ArgoRolloutsScript (sample_event "Delete")
           [Exited 0; Exited 1; SpawnFailed kubectl_missing]
           sample_bag _ _ _ _ 1%nat _ _ sample_delete_event (sample_bag_complete _) Hi).
Defined.

(** ** Facts about [deploy] *)

Lemma bind_inr {S E A B} (m : M S E A) (k : A → M S E B) s s' b :
  bind m k s = (s', inr b) → ∃ s1 a, m s = (s1, inr a) ∧ k a s1 = (s', inr b).
Proof. unfold bind. destruct (m s) as [s1 [e|a]]; [done|]. eauto. Qed.

Lemma ret_inr {S E A} (a : A) (s s' : S) (b : A) :
  @ret S E A a s = (s', inr b) → s' = s ∧ b = a.
Proof. unfold ret. naive_solver. Qed.

Lemma assoc_ids id l r : assoc id l = Some r → id ∈ l.*1.
Proof.
  induction l as [|[id' r'] l IH]; simpl; [done|].
  case_bool_decide; set_solver.
Qed.

Lemma assoc_app_l id l l' r : assoc id l = Some r → assoc id (l ++ l') = Some r.
Proof.
  induction l as [|[id' r'] l IH]; simpl; [done|]. by case_bool_decide.
Qed.

Lemma assoc_app_r id l l' : id ∉ l.*1 → assoc id (l ++ l') = assoc id l'.
Proof.
  induction l as [|[id' r'] l IH]; simpl; [done|].
  intros [??]%not_elem_of_cons. rewrite bool_decide_eq_false_2 by done. auto.
Qed.

Lemma with_policy_fst fn st x : fst (with_policy fn st x) = fst x.
Proof. unfold with_policy. destruct x as [id []]; simpl; try done. by case_bool_decide. Qed.

Lemma with_policy_ne fn st x : fst x ≠ fn → with_policy fn st x = x.
Proof.
  unfold with_policy. destruct x as [id []]; simpl; try done.
  intros. by rewrite bool_decide_eq_false_2.
Qed.

Lemma with_policy_ids fn st l : (with_policy fn st <$> l).*1 = l.*1.
Proof.
  induction l as [|x l IH]; [done|].
  rewrite !fmap_cons, IH, with_policy_fst. done.
Qed.

Lemma ids_with_policy n r fn st l d :
  ids {| clusterName := n; region := r;
         children := with_policy fn st <$> l; dependencies := d |} = l.*1.
Proof. unfold ids. simpl. apply with_policy_ids. Qed.

Lemma assoc_cons id x l :
  assoc id (x :: l) = if bool_decide (fst x = id) then Some (snd x) else assoc id l.
Proof. by destruct x. Qed.

Lemma assoc_with_policy_ne fn st l id :
  id ≠ fn → assoc id (with_policy fn st <$> l) = assoc id l.
Proof.
  intros Hne. induction l as [|x l IH]; [done|].
  rewrite fmap_cons, !assoc_cons, with_policy_fst, IH.
  case_bool_decide as Hx; [|done]. rewrite with_policy_ne; [done|congruence].
Qed.

Lemma assoc_with_policy_eq fn st l rt h code t pol :
  assoc fn l = Some (LambdaFunction rt h code t pol) →
  assoc fn (with_policy fn st <$> l) = Some (LambdaFunction rt h code t (pol ++ [st])).
Proof.
  induction l as [|x l IH]; [done|].
  rewrite fmap_cons, !assoc_cons, with_policy_fst.
  case_bool_decide as Hx; [|done].
  intros [= Hr]. destruct x as [id r]. simpl in *. subst.
  unfold with_policy. simpl. by rewrite bool_decide_eq_true_2.
Qed.

Lemma extends_trans c c1 c2 e1 e2 :
  extends c c1 e1 → extends c1 c2 e2 → extends c c2 (e1 ++ e2).
Proof.
  intros (?&?&?&?) (?&?&?&?). split_and!; [congruence|congruence| |auto].
  rewrite app_assoc. congruence.
Qed.

Lemma construct_ext id r c c' x :
  construct id r c = (c', inr x) →
  x = id ∧ (id ∉ ids c) ∧ ids c' = ids c ++ [id] ∧ extends c c' [] ∧
  child c' id = Some r.
Proof.
  unfold construct. case_bool_decide as Hid; [done|]. intros [= <- <-].
  split_and!; [done|done| | |].
  - unfold ids. simpl. by rewrite fmap_app.
  - split_and!; simpl; [done|done|by rewrite app_nil_r|].
    intros j y. unfold child. simpl. apply assoc_app_l.
  - unfold child. simpl. rewrite assoc_app_r by done. simpl.
    by rewrite bool_decide_eq_true_2.
Qed.

Lemma addDependency_ext a b c c' x :
  addDependency a b c = (c', inr x) → ids c' = ids c ∧ extends c c' [(a, b)].
Proof. unfold addDependency, modify. intros [= <-]. by split_and!. Qed.

Lemma createCleanupProvider_ext l p code c c' x :
  createCleanupProvider l p code c = (c', inr x) →
  x = p ∧ ids c' = ids c ++ [l; p] ∧ (l ∉ ids c) ∧ (p ∉ ids c ++ [l]) ∧
  extends c c' [] ∧
  child c' l = Some (LambdaFunction "python3.9" "index.handler" code 15 [eks_policy]) ∧
  child c' p = Some (Provider l).
Proof.
  unfold createCleanupProvider. intros H.
  apply bind_inr in H as (c1 & fn & H1 & H).
  apply construct_ext in H1 as (-> & Hl & Hids1 & (Hn1 & Hr1 & Hd1 & Hk1) & Hc1).
  apply bind_inr in H as (c2 & [] & H2 & H).
  unfold addToRolePolicy, modify in H2. injection H2 as <-.
  apply bind_inr in H as (c3 & pv & H3 & H).
  apply construct_ext in H3 as (-> & Hp & Hids3 & (Hn3 & Hr3 & Hd3 & Hk3) & Hc3).
  apply ret_inr in H as [-> ->].
  rewrite ids_with_policy in Hp, Hids3. fold (ids c1) in Hp, Hids3.
  rewrite Hids1 in Hp, Hids3. simpl in Hn3, Hr3, Hd3.
  split_and!; [done| |done|done| | |done].
  - rewrite Hids3, <- app_assoc. done.
  - split_and!; [congruence|congruence| |].
    + simpl in Hd3. rewrite Hd3, Hd1, !app_nil_r. done.
    + intros j y Hj. apply Hk3. unfold child. simpl.
      rewrite assoc_with_policy_ne; [by apply Hk1|].
      intros ->. apply Hl. by eapply assoc_ids.
  - apply Hk3. unfold child. simpl.
    by apply (assoc_with_policy_eq l eks_policy (children c1) _ _ _ _ []).
Qed.

Lemma gets_inr {S E A} (f : S → A) (s s' : S) (b : A) :
  @gets S E A f s = (s', inr b) → s' = s ∧ b = f s.
Proof. unfold gets. naive_solver. Qed.

Lemma extends_refl c : extends c c [].
Proof. split_and!; [done|done|by rewrite app_nil_r|done]. Qed.

(** What the cleanup custom resource of the manifest-based add-on holds. *)
Lemma core_setupCleanupMechanism_ext now ns res c c' x :
  ArgoCDCoreAddOn.setupCleanupMechanism now ns res c = (c', inr x) →
  x = "argocd-core-cleanup-cr" ∧
  extends c c' [("argocd-core-cleanup-cr", res)] ∧
  child c' "argocd-core-cleanup-cr" =
    Some (CustomResource "argocd-core-cleanup-provider"
            (<["timestamp" := pretty now]>
             (<["namespace" := ns]>
              (<["clusterName" := clusterName c]>
               (<["region" := region c]> ∅))))
            "Custom::ArgoCDCoreCleanup").
Proof.
  unfold ArgoCDCoreAddOn.setupCleanupMechanism. intros H.
  apply bind_inr in H as (c1 & tok & H1 & H).
  apply createCleanupProvider_ext in H1 as (-> & _ & _ & _ & Hx1 & _ & _).
  apply bind_inr in H as (c2 & cl & H2 & H). apply gets_inr in H2 as [-> ->].
  apply bind_inr in H as (c3 & cr & H3 & H).
  apply construct_ext in H3 as (-> & _ & _ & Hx3 & Hc3).
  apply bind_inr in H as (c4 & [] & H4 & H).
  apply addDependency_ext in H4 as [_ Hx4].
  apply ret_inr in H as [-> ->].
  split_and!; [done| |].
  - apply (extends_trans _ _ _ [] _ Hx1), (extends_trans _ _ _ [] _ Hx3), Hx4.
  - destruct Hx1 as (Hn & Hr & _). rewrite Hn, Hr in Hc3.
    destruct Hx4 as (_ & _ & _ & Hk). by apply Hk.
Qed.

Lemma helm_setupCleanupMechanism_ext names now ns res c c' x :
  HelmAddOn.setupCleanupMechanism names now ns res c = (c', inr x) →
  x = cleanup_cr_id names ∧
  extends c c' [(cleanup_cr_id names, res)] ∧
  child c' (cleanup_cr_id names) =
    Some (CustomResource (cleanup_provider_id names)
            (<["timestamp" := pretty now]>
             (<["namespace" := ns]>
              (<["releaseName" := release_name names]>
               (<["clusterName" := clusterName c]>
                (<["region" := region c]> ∅)))))
            (resource_type names)).
Proof.
  unfold HelmAddOn.setupCleanupMechanism. intros H.
  apply bind_inr in H as (c1 & tok & H1 & H).
  apply createCleanupProvider_ext in H1 as (-> & _ & _ & _ & Hx1 & _ & _).
  apply bind_inr in H as (c2 & cl & H2 & H). apply gets_inr in H2 as [-> ->].
  apply bind_inr in H as (c3 & cr & H3 & H).
  apply construct_ext in H3 as (-> & _ & _ & Hx3 & Hc3).
  apply bind_inr in H as (c4 & [] & H4 & H).
  apply addDependency_ext in H4 as [_ Hx4].
  apply ret_inr in H as [-> ->].
  split_and!; [done| |].
  - apply (extends_trans _ _ _ [] _ Hx1), (extends_trans _ _ _ [] _ Hx3), Hx4.
  - destruct Hx1 as (Hn & Hr & _). rewrite Hn, Hr in Hc3.
    destruct Hx4 as (_ & _ & _ & Hk). by apply Hk.
Qed.

(** The names [addManifest] gives to the three manifests of the
    manifest-based add-on. *)
Ltac scope_names :=
  change ("manifest-" +:+ "argocd-namespace") with "manifest-argocd-namespace" in *;
  change ("manifest-" +:+ "argocd-installer-sa") with "manifest-argocd-installer-sa" in *;
  change ("manifest-" +:+ "argocd-installer-rb") with "manifest-argocd-installer-rb" in *.

Lemma core_deploy_ext this now c0 c r :
  ArgoCDCoreAddOn.deploy this now c0 = (c, inr r) →
  r = "argocd-apply" ∧
  extends c0 c (core_edges this) ∧
  kind_of <$> child c "manifest-argocd-namespace" = Some (Some "Namespace") ∧
  kind_of <$> child c "manifest-argocd-installer-sa" = Some (Some "ServiceAccount") ∧
  kind_of <$> child c "manifest-argocd-installer-rb" = Some (Some "ClusterRoleBinding") ∧
  kind_of <$> child c "argocd-apply" = Some (Some "Job") ∧
  (ArgoCDCoreAddOn.this_cleanupEnabled this = true →
   kind_of <$> child c "argocd-core-cleanup-cr" = Some (Some "CustomResource") ∧
   nonce c "argocd-core-cleanup-cr" = Some (pretty now)).
Proof.
  unfold ArgoCDCoreAddOn.deploy, addManifest. cbv zeta. intros H. scope_names.
  apply bind_inr in H as (c1 & ns & H1 & H).
  apply construct_ext in H1 as (-> & _ & _ & Hx1 & Hc1).
  apply bind_inr in H as (c2 & sa & H2 & H).
  apply construct_ext in H2 as (-> & _ & _ & Hx2 & Hc2).
  apply bind_inr in H as (c3 & rb & H3 & H).
  apply construct_ext in H3 as (-> & _ & _ & Hx3 & Hc3).
  apply bind_inr in H as (c4 & ap & H4 & H).
  apply construct_ext in H4 as (-> & _ & _ & Hx4 & Hc4).
  apply bind_inr in H as (c5 & [] & H5 & H). apply addDependency_ext in H5 as [_ Hx5].
  apply bind_inr in H as (c6 & [] & H6 & H). apply addDependency_ext in H6 as [_ Hx6].
  apply bind_inr in H as (c7 & [] & H7 & H). apply addDependency_ext in H7 as [_ Hx7].
  apply bind_inr in H as (c8 & [] & H8 & H).
  apply ret_inr in H as [-> ->].
  pose proof (extends_trans _ _ _ _ _ Hx1
               (extends_trans _ _ _ _ _ Hx2
                 (extends_trans _ _ _ _ _ Hx3
                   (extends_trans _ _ _ _ _ Hx4
                     (extends_trans _ _ _ _ _ Hx5
                       (extends_trans _ _ _ _ _ Hx6 Hx7)))))) as Hx07.
  simpl in Hx07.
  assert (∃ e, extends c7 c8 e ∧
               e = (if ArgoCDCoreAddOn.this_cleanupEnabled this
                    then [("argocd-core-cleanup-cr", "argocd-apply")] else []) ∧
               (ArgoCDCoreAddOn.this_cleanupEnabled this = true →
                ∃ tok props ty, child c8 "argocd-core-cleanup-cr"
                                = Some (CustomResource tok props ty)
                                ∧ props !! "timestamp" = Some (pretty now)))
    as (e & Hx8 & -> & Hcr).
  { destruct (ArgoCDCoreAddOn.this_cleanupEnabled this).
    - apply bind_inr in H8 as (c9 & cr & H9 & H8).
      apply core_setupCleanupMechanism_ext in H9 as (-> & Hx9 & Hc9).
      apply ret_inr in H8 as [-> _].
      eexists. split_and!; [exact Hx9|done|]. intros _.
      eexists _, _, _. split; [exact Hc9|]. by rewrite lookup_insert_eq.
    - apply ret_inr in H8 as [-> _]. exists []. split_and!; [apply extends_refl|done|done]. }
  pose proof (extends_trans _ _ _ _ _ Hx07 Hx8) as Hx.
  assert (∀ j y, child c7 j = Some y → child c8 j = Some y) as keep8
    by (destruct Hx8 as (_&_&_&Hk); exact Hk).
  assert (∀ j y, child c4 j = Some y → child c7 j = Some y) as keep7.
  { intros j y Hj. destruct Hx5 as (_&_&_&K5), Hx6 as (_&_&_&K6), Hx7 as (_&_&_&K7). auto. }
  destruct Hx2 as (_&_&_&K2), Hx3 as (_&_&_&K3), Hx4 as (_&_&_&K4).
  split_and!; [done|exact Hx| | | | |].
  - rewrite (keep8 _ _ (keep7 _ _ (K4 _ _ (K3 _ _ (K2 _ _ Hc1))))). reflexivity.
  - rewrite (keep8 _ _ (keep7 _ _ (K4 _ _ (K3 _ _ Hc2)))). reflexivity.
  - rewrite (keep8 _ _ (keep7 _ _ (K4 _ _ Hc3))). reflexivity.
  - rewrite (keep8 _ _ (keep7 _ _ Hc4)). reflexivity.
  - intros Hen. destruct (Hcr Hen) as (tok & props & ty & Hc & Ht).
    unfold nonce. rewrite Hc. done.
Qed.

Lemma helm_deploy_ext names this now c0 c r :
  HelmAddOn.deploy names this now c0 = (c, inr r) →
  r = (if HelmAddOn.this_cleanupEnabled this
       then cleanup_cr_id names else "chart-" +:+ chart_id names) ∧
  extends c0 c (helm_edges names this) ∧
  kind_of <$> child c ("chart-" +:+ chart_id names) = Some (Some "HelmChart") ∧
  (default true (HelmAddOn.createNamespace (HelmAddOn.props this)) = true →
   kind_of <$> child c ("manifest-" +:+ namespace_id names) = Some (Some "Namespace")) ∧
  (HelmAddOn.this_cleanupEnabled this = true →
   kind_of <$> child c (cleanup_cr_id names) = Some (Some "CustomResource") ∧
   nonce c (cleanup_cr_id names) = Some (pretty now)).
Proof.
  unfold HelmAddOn.deploy, helm_edges, addManifest, addHelmChart. cbv zeta. intros H.
  apply bind_inr in H as (c1 & chart & H1 & H).
  assert (chart = "chart-" +:+ chart_id names ∧
          extends c0 c1 (if default true (HelmAddOn.createNamespace (HelmAddOn.props this))
                         then [("chart-" +:+ chart_id names, "manifest-" +:+ namespace_id names)] else []) ∧
          kind_of <$> child c1 ("chart-" +:+ chart_id names) = Some (Some "HelmChart") ∧
          (default true (HelmAddOn.createNamespace (HelmAddOn.props this)) = true →
           kind_of <$> child c1 ("manifest-" +:+ namespace_id names) = Some (Some "Namespace")))
    as (-> & Hx1 & Hchart & Hns).
  { destruct (default true (HelmAddOn.createNamespace (HelmAddOn.props this))).
    - apply bind_inr in H1 as (c2 & ns & H2 & H1).
      apply construct_ext in H2 as (-> & _ & _ & Hx2 & Hc2).
      apply bind_inr in H1 as (c3 & ch & H3 & H1).
      apply construct_ext in H3 as (-> & _ & _ & Hx3 & Hc3).
      apply bind_inr in H1 as (c4 & [] & H4 & H1).
      apply addDependency_ext in H4 as [_ Hx4].
      apply ret_inr in H1 as [-> ->].
      split_and!; [done| | |].
      + apply (extends_trans _ _ _ [] _ Hx2), (extends_trans _ _ _ [] _ Hx3), Hx4.
      + destruct Hx4 as (_&_&_&K4). by rewrite (K4 _ _ Hc3).
      + intros _. destruct Hx3 as (_&_&_&K3), Hx4 as (_&_&_&K4).
        by rewrite (K4 _ _ (K3 _ _ Hc2)).
    - apply construct_ext in H1 as (-> & _ & _ & Hx1 & Hc1).
      split_and!; [done|done|by rewrite Hc1|done]. }
  apply bind_inr in H as (c5 & main & H5 & H). apply ret_inr in H as [-> ->].
  destruct (HelmAddOn.this_cleanupEnabled this).
  - apply helm_setupCleanupMechanism_ext in H5 as (-> & Hx5 & Hc5).
    pose proof (extends_trans _ _ _ _ _ Hx1 Hx5) as Hx.
    destruct Hx5 as (_&_&_&K5).
    destruct (child c1 ("chart-" +:+ chart_id names)) as [y|] eqn:Hy; [|done].
    rewrite (K5 _ _ Hy). split_and!; [done|done|done| |].
    + intros Hen. specialize (Hns Hen).
      destruct (child c1 ("manifest-" +:+ namespace_id names)) as [z|] eqn:Hz; [|done].
      by rewrite (K5 _ _ Hz).
    + intros _. unfold nonce. rewrite Hc5. split; [done|]. by rewrite lookup_insert_eq.
  - apply ret_inr in H5 as [-> ->]. rewrite app_nil_r. by split_and!.
Qed.

(** ** Schedules *)

Lemma before_reverse x y (order : list string) :
  before x y (reverse order) ↔ before y x order.
Proof.
  assert (∀ x y l, before x y l → before y x (reverse l)) as Hrev.
  { intros a b l (i & j & Hi & Hj & Hlt).
    pose proof (lookup_lt_Some _ _ _ Hi). pose proof (lookup_lt_Some _ _ _ Hj).
    exists (length l - S j)%nat, (length l - S i)%nat.
    rewrite !reverse_lookup by lia.
    replace (length l - S (length l - S j))%nat with j by lia.
    replace (length l - S (length l - S i))%nat with i by lia.
    split_and!; [done|done|lia]. }
  split; intros H.
  - apply Hrev in H. by rewrite reverse_involutive in H.
  - by apply Hrev.
Qed.

Lemma before_trans x y z (order : list string) :
  NoDup order → before x y order → before y z order → before x z order.
Proof.
  intros Hnd (i & j & Hi & Hj & Hij) (j' & k & Hj' & Hk & Hjk).
  assert (j = j') as <- by (eapply NoDup_lookup; eauto).
  exists i, k. split_and!; [done|done|lia].
Qed.

(** In a valid schedule nothing is created before what it depends on: at
    every moment, the constructs created so far include the dependencies
    of each of them. *)
Lemma schedule_prefix_closed c order k a b :
  valid_schedule c order → (a, b) ∈ dependencies c →
  a ∈ take k order → b ∈ take k order.
Proof.
  intros (Hnd & _ & Hdep) Hab Ha.
  destruct (Hdep a b Hab) as (i & j & Hi & Hj & Hij).
  apply list_elem_of_lookup in Ha as [j' Hj'].
  pose proof (lookup_lt_Some _ _ _ Hj') as Hlen. rewrite length_take in Hlen.
  rewrite lookup_take_lt in Hj' by lia.
  assert (j = j') as <- by (eapply NoDup_lookup; eauto).
  apply list_elem_of_lookup. exists i. rewrite lookup_take_lt by lia. done.
Qed.

Lemma chain_before (l order : list string) :
  NoDup order →
  (∀ i x y, l !! i = Some x → l !! S i = Some y → before x y order) →
  ∀ i j x y, l !! i = Some x → l !! j = Some y → (i < j)%nat → before x y order.
Proof.
  intros Hnd Hstep i j. revert i. induction j as [|j IH]; intros i x y Hi Hj Hlt; [lia|].
  destruct (decide (i = j)) as [->|Hne]; [by eapply Hstep|].
  assert (is_Some (l !! j)) as [z Hz].
  { apply lookup_lt_is_Some. apply lookup_lt_Some in Hj. lia. }
  eapply before_trans; [done|eapply (IH i); [done|done|lia]|by eapply Hstep].
Qed.

(** *** [deploy] succeeds in a scope where its names are free *)

Lemma bind_step {S E A B} (m : M S E A) (k : A → M S E B) s s1 a :
  m s = (s1, inr a) → bind m k s = k a s1.
Proof. unfold bind. by intros ->. Qed.

Lemma bind_assoc {S E A B C} (m : M S E A) (k : A → M S E B) (k' : B → M S E C) s :
  bind (bind m k) k' s = bind m (λ a, bind (k a) k') s.
Proof. unfold bind. by destruct (m s) as [? [?|?]]. Qed.

Lemma bind_gets {S E A B} (f : S → A) (k : A → M S E B) s :
  bind (gets f) k s = k (f s) s.
Proof. done. Qed.

Lemma construct_ok id r c :
  id ∉ ids c → ∃ c', construct id r c = (c', inr id) ∧ ids c' = ids c ++ [id].
Proof.
  intros H. unfold construct. rewrite bool_decide_eq_false_2 by done.
  eexists. split; [done|]. unfold ids. simpl. by rewrite fmap_app.
Qed.

Lemma addDependency_ok a b c :
  ∃ c', addDependency a b c = (c', inr tt) ∧ ids c' = ids c.
Proof. by eexists. Qed.

Lemma createCleanupProvider_ok l p code c :
  l ∉ ids c → p ∉ ids c → l ≠ p →
  ∃ c', createCleanupProvider l p code c = (c', inr p) ∧ ids c' = ids c ++ [l; p].
Proof.
  intros Hl Hp Hlp. unfold createCleanupProvider.
  destruct (construct_ok l (LambdaFunction "python3.9" "index.handler" code 15 []) c Hl)
    as (c1 & E1 & I1).
  rewrite (bind_step _ _ _ _ _ E1).
  unfold addToRolePolicy, modify. unfold bind at 1.
  match goal with |- context [bind (construct p ?r) _ ?c2] =>
    destruct (construct_ok p r c2) as (c3 & E3 & I3) end.
  { rewrite ids_with_policy. fold (ids c1). rewrite I1. set_solver. }
  rewrite (bind_step _ _ _ _ _ E3). exists c3. split; [done|].
  rewrite I3, ids_with_policy. fold (ids c1). rewrite I1, <- app_assoc. done.
Qed.

Lemma deploy_ok a now c0 :
  NoDup (new_ids a) → (∀ id, id ∈ new_ids a → id ∉ ids c0) →
  ∃ c r, deploy a now c0 = (c, inr r) ∧ ids c = ids c0 ++ new_ids a.
Proof.
  intros Hnd Hfresh. destruct a as [this|names this]; unfold new_ids in *; simpl in *.
  - unfold ArgoCDCoreAddOn.deploy, ArgoCDCoreAddOn.setupCleanupMechanism, addManifest.
    cbv zeta. scope_names.
    match goal with |- context [bind (construct "manifest-argocd-namespace" ?r) _ ?c] =>
      destruct (construct_ok "manifest-argocd-namespace" r c) as (c1 & E1 & I1) end.
    { apply Hfresh. set_solver. }
    rewrite (bind_step _ _ _ _ _ E1).
    match goal with |- context [bind (construct "manifest-argocd-installer-sa" ?r) _ ?c] =>
      destruct (construct_ok "manifest-argocd-installer-sa" r c) as (c2 & E2 & I2) end.
    { rewrite I1. apply not_elem_of_app. split; [apply Hfresh; set_solver|set_solver]. }
    rewrite (bind_step _ _ _ _ _ E2).
    match goal with |- context [bind (construct "manifest-argocd-installer-rb" ?r) _ ?c] =>
      destruct (construct_ok "manifest-argocd-installer-rb" r c) as (c3 & E3 & I3) end.
    { rewrite I2, I1, <- app_assoc.
      apply not_elem_of_app. split; [apply Hfresh; set_solver|set_solver]. }
    rewrite (bind_step _ _ _ _ _ E3).
    match goal with |- context [bind (construct "argocd-apply" ?r) _ ?c] =>
      destruct (construct_ok "argocd-apply" r c) as (c4 & E4 & I4) end.
    { rewrite I3, I2, I1, <- !app_assoc.
      apply not_elem_of_app. split; [apply Hfresh; set_solver|set_solver]. }
    rewrite (bind_step _ _ _ _ _ E4).
    unfold addDependency at 1 2 3, modify. unfold bind at 1 2 3.
    match goal with |- context [bind _ _ ?c] => set (c7 := c) end.
    assert (ids c7 = ids c0 ++ ["manifest-argocd-namespace"; "manifest-argocd-installer-sa";
                                "manifest-argocd-installer-rb"; "argocd-apply"]) as I7.
    { unfold c7, ids. simpl. fold (ids c4).
      rewrite I4, I3, I2, I1, <- !app_assoc. done. }
    clearbody c7.
    destruct (ArgoCDCoreAddOn.this_cleanupEnabled this).
    + destruct (createCleanupProvider_ok "argocd-core-cleanup-lambda"
                  "argocd-core-cleanup-provider" ArgoCDCoreScript c7)
        as (c8 & E8 & I8).
      { rewrite I7. apply not_elem_of_app. split; [apply Hfresh; set_solver|set_solver]. }
      { rewrite I7. apply not_elem_of_app. split; [apply Hfresh; set_solver|set_solver]. }
      { done. }
      unfold bind at 1 2. rewrite (bind_step _ _ _ _ _ E8).
      unfold gets at 1. unfold bind at 1.
      match goal with |- context [bind (construct "argocd-core-cleanup-cr" ?r) _ ?c] =>
      destruct (construct_ok "argocd-core-cleanup-cr" r c) as (c9 & E9 & I9) end.
      { rewrite I8, I7, <- !app_assoc.
        apply not_elem_of_app. split; [apply Hfresh; set_solver|set_solver]. }
      rewrite (bind_step _ _ _ _ _ E9).
      eexists _, _. split; [reflexivity|]. simpl.
      unfold ids. simpl. fold (ids c9). rewrite I9, I8, I7, <- !app_assoc. done.
    + eexists _, _. split; [reflexivity|]. simpl. rewrite ?app_nil_r. done.
  - unfold HelmAddOn.deploy, HelmAddOn.setupCleanupMechanism, addManifest, addHelmChart.
    cbv zeta.
    set (o := {| repository := "https://argoproj.github.io/argo-helm";
                 chart := chart_name names; release := release_name names;
                 chart_namespace := _; chart_version := _; values := _ |}).
    match goal with |- context [bind (if ?b then ?m1 else ?m2) _ c0] =>
      assert (∃ c1, (if b then m1 else m2) c0 = (c1, inr ("chart-" +:+ chart_id names)) ∧
                    ids c1 = ids c0 ++ chain (Helm names this)) as (c1 & E1 & I1)
    end.
    { simpl. destruct (default true (HelmAddOn.createNamespace (HelmAddOn.props this))).
      - match goal with |- context [bind (construct ("manifest-" +:+ namespace_id names) ?r) _ ?c] =>
          destruct (construct_ok ("manifest-" +:+ namespace_id names) r c) as (c2 & E2 & I2) end.
        { apply Hfresh. set_solver. }
        rewrite (bind_step _ _ _ _ _ E2).
        destruct (construct_ok ("chart-" +:+ chart_id names) (HelmChart o) c2) as (c3 & E3 & I3).
        { rewrite I2. apply not_elem_of_app. split; [apply Hfresh; set_solver|].
          apply NoDup_app in Hnd as [Hnd _]. apply NoDup_cons in Hnd as [? _]. set_solver. }
        rewrite (bind_step _ _ _ _ _ E3). eexists. split; [reflexivity|].
        unfold ids. simpl. fold (ids c3). rewrite I3, I2, <- app_assoc. done.
      - destruct (construct_ok ("chart-" +:+ chart_id names) (HelmChart o) c0) as (c3 & E3 & I3).
        { apply Hfresh. set_solver. }
        eauto. }
    rewrite (bind_step _ _ _ _ _ E1).
    destruct (HelmAddOn.this_cleanupEnabled this).
    + assert ((cleanup_lambda_id names ∉ ids c1) ∧ (cleanup_provider_id names ∉ ids c1) ∧
              (cleanup_cr_id names ∉ ids c1) ∧
              NoDup [cleanup_lambda_id names; cleanup_provider_id names;
                     cleanup_cr_id names]) as (Fl & Fp & Fc & Hnd3).
      { apply NoDup_app in Hnd as (_ & Hdisj & Hnd3).
        split_and!; [| | |done]; rewrite I1; apply not_elem_of_app;
          (split; [apply Hfresh; set_solver|]); intros Hin; eapply Hdisj; eauto; set_solver. }
      apply NoDup_cons in Hnd3 as [Hlp Hnd3]. apply NoDup_cons in Hnd3 as [Hpc _].
      destruct (createCleanupProvider_ok (cleanup_lambda_id names)
                  (cleanup_provider_id names) (cleanup_script names) c1)
        as (c8 & E8 & I8); [done|done|set_solver|].
      rewrite bind_assoc, (bind_step _ _ _ _ _ E8), bind_assoc, bind_gets, bind_assoc.
      match goal with |- context [bind (construct (cleanup_cr_id names) ?r) _ ?c] =>
        destruct (construct_ok (cleanup_cr_id names) r c) as (c9 & E9 & I9) end.
      { rewrite I8. apply not_elem_of_app. split; [done|set_solver]. }
      rewrite (bind_step _ _ _ _ _ E9).
      eexists _, _. split; [reflexivity|]. simpl.
      unfold ids. simpl. fold (ids c9). rewrite I9, I8, I1, <- !app_assoc. done.
    + eexists _, _. split; [reflexivity|]. simpl. rewrite ?app_nil_r. done.
Qed.

(** *** The creation order of [deploy] respects the edges it declares *)

Lemma grows_refl c : grows c c [].
Proof. split; [by rewrite app_nil_r|done]. Qed.

Lemma grows_trans c c1 c2 n1 n2 :
  grows c c1 n1 → grows c1 c2 n2 → grows c c2 (n1 ++ n2).
Proof.
  intros [I1 N1] [I2 N2]. split; [|auto]. by rewrite I2, I1, app_assoc.
Qed.

Lemma construct_grows id r c c' x :
  construct id r c = (c', inr x) → grows c c' [id].
Proof.
  intros (_ & Hid & Hids & _)%construct_ext. split; [done|].
  intros Hnd. rewrite Hids. apply NoDup_app. split_and!; [done| |apply NoDup_singleton].
  intros y Hy ->%list_elem_of_singleton. done.
Qed.

Lemma addDependency_grows a b c c' x :
  addDependency a b c = (c', inr x) → grows c c' [].
Proof.
  intros [Hids _]%addDependency_ext. split; [by rewrite app_nil_r|by rewrite Hids].
Qed.

Lemma createCleanupProvider_grows l p code c c' x :
  createCleanupProvider l p code c = (c', inr x) → grows c c' [l; p].
Proof.
  intros (_ & Hids & Hl & Hp & _)%createCleanupProvider_ext. split; [done|].
  intros Hnd. rewrite Hids. change [l; p] with ([l] ++ [p]). rewrite app_assoc.
  apply NoDup_app. split_and!; [|by intros y Hy ->%list_elem_of_singleton
                                |apply NoDup_singleton].
  apply NoDup_app. split_and!; [done| |apply NoDup_singleton].
  intros y Hy ->%list_elem_of_singleton. done.
Qed.

Lemma deploy_grows a now c0 c r :
  deploy a now c0 = (c, inr r) → grows c0 c (new_ids a).
Proof.
  destruct a as [this|names this];
    unfold new_ids, chain, cleanup_enabled, deploy; cbv beta iota.
  - unfold ArgoCDCoreAddOn.deploy, ArgoCDCoreAddOn.setupCleanupMechanism, addManifest.
    cbv zeta. intros H. scope_names.
    apply bind_inr in H as (c1 & ? & G1%construct_grows & H).
    apply bind_inr in H as (c2 & ? & G2%construct_grows & H).
    apply bind_inr in H as (c3 & ? & G3%construct_grows & H).
    apply bind_inr in H as (c4 & ? & G4%construct_grows & H).
    apply bind_inr in H as (c5 & ? & G5%addDependency_grows & H).
    apply bind_inr in H as (c6 & ? & G6%addDependency_grows & H).
    apply bind_inr in H as (c7 & ? & G7%addDependency_grows & H).
    apply bind_inr in H as (c8 & ? & H8 & H). apply ret_inr in H as [-> _].
    pose proof (grows_trans _ _ _ _ _ G1 (grows_trans _ _ _ _ _ G2
                 (grows_trans _ _ _ _ _ G3 (grows_trans _ _ _ _ _ G4
                   (grows_trans _ _ _ _ _ G5 (grows_trans _ _ _ _ _ G6 G7))))))
      as G07. simpl in G07.
    eapply grows_trans; [exact G07|].
    destruct (ArgoCDCoreAddOn.this_cleanupEnabled this).
    + apply bind_inr in H8 as (c9 & ? & H9 & H8). apply ret_inr in H8 as [-> _].
      apply bind_inr in H9 as (d1 & ? & P1%createCleanupProvider_grows & H9).
      apply bind_inr in H9 as (d2 & ? & [-> _]%gets_inr & H9).
      apply bind_inr in H9 as (d3 & ? & P3%construct_grows & H9).
      apply bind_inr in H9 as (d4 & ? & P4%addDependency_grows & H9).
      apply ret_inr in H9 as [-> _].
      exact (grows_trans _ _ _ _ _ P1 (grows_trans _ _ _ _ _ P3 P4)).
    + apply ret_inr in H8 as [-> _]. apply grows_refl.
  - unfold HelmAddOn.deploy, HelmAddOn.setupCleanupMechanism, addManifest, addHelmChart.
    cbv zeta. intros H.
    apply bind_inr in H as (c1 & chart & H1 & H).
    apply bind_inr in H as (c5 & ? & H5 & H). apply ret_inr in H as [-> _].
    eapply grows_trans.
    + destruct (default true _).
      * apply bind_inr in H1 as (c2 & ? & G2%construct_grows & H1).
        apply bind_inr in H1 as (c3 & ? & G3%construct_grows & H1).
        apply bind_inr in H1 as (c4 & ? & G4%addDependency_grows & H1).
        apply ret_inr in H1 as [-> _].
        exact (grows_trans _ _ _ _ _ G2 (grows_trans _ _ _ _ _ G3 G4)).
      * by eapply construct_grows.
    + destruct (HelmAddOn.this_cleanupEnabled this).
      * apply bind_inr in H5 as (d1 & ? & P1%createCleanupProvider_grows & H5).
        apply bind_inr in H5 as (d2 & ? & [-> _]%gets_inr & H5).
        apply bind_inr in H5 as (d3 & ? & P3%construct_grows & H5).
        apply bind_inr in H5 as (d4 & ? & P4%addDependency_grows & H5).
        apply ret_inr in H5 as [-> _].
        exact (grows_trans _ _ _ _ _ P1 (grows_trans _ _ _ _ _ P3 P4)).
      * apply ret_inr in H5 as [-> _]. apply grows_refl.
Qed.

Lemma deploy_edges a now c0 c r :
  deploy a now c0 = (c, inr r) → dependencies c = dependencies c0 ++ edges a.
Proof.
  destruct a as [this|names this]; simpl; intros H.
  - by apply core_deploy_ext in H as (_ & (_ & _ & Hd & _) & _).
  - by apply helm_deploy_ext in H as (_ & (_ & _ & Hd & _) & _).
Qed.

Lemma before_app_l x y (l l' : list string) : before x y l → before x y (l ++ l').
Proof.
  intros (i & j & Hi & Hj & Hlt). exists i, j.
  split_and!; [by apply lookup_app_l_Some|by apply lookup_app_l_Some|done].
Qed.

Lemma before_app_r x y (l l' : list string) : before x y l' → before x y (l ++ l').
Proof.
  intros (i & j & Hi & Hj & Hlt). exists (length l + i)%nat, (length l + j)%nat.
  rewrite !lookup_app_r by lia.
  replace (length l + i - length l)%nat with i by lia.
  replace (length l + j - length l)%nat with j by lia.
  split_and!; [done|done|lia].
Qed.

(** Every edge [deploy] declares points from a construct to one that
    [deploy] created earlier. *)
Lemma edges_point_back a x y : (y, x) ∈ edges a → before x y (new_ids a).
Proof.
  destruct a as [this|names this]; unfold new_ids; simpl.
  - unfold core_edges. destruct (ArgoCDCoreAddOn.this_cleanupEnabled this); simpl;
      intros Hin; repeat (apply elem_of_cons in Hin as [[= -> ->]|Hin]);
      try (by apply elem_of_nil in Hin).
    + exists 0%nat, 1%nat. by split_and!; [..|lia].
    + exists 1%nat, 2%nat. by split_and!; [..|lia].
    + exists 2%nat, 3%nat. by split_and!; [..|lia].
    + exists 3%nat, 6%nat. by split_and!; [..|lia].
    + exists 0%nat, 1%nat. by split_and!; [..|lia].
    + exists 1%nat, 2%nat. by split_and!; [..|lia].
    + exists 2%nat, 3%nat. by split_and!; [..|lia].
  - unfold helm_edges.
    destruct (default true _), (HelmAddOn.this_cleanupEnabled this); simpl;
      intros Hin; repeat (apply elem_of_cons in Hin as [[= -> ->]|Hin]);
      try (by apply elem_of_nil in Hin).
    + exists 0%nat, 1%nat. by split_and!; [..|lia].
    + exists 1%nat, 4%nat. by split_and!; [..|lia].
    + exists 0%nat, 1%nat. by split_and!; [..|lia].
    + exists 0%nat, 3%nat. by split_and!; [..|lia].
Qed.

(** If the constructs already in the scope were created in an order that
    respects their dependencies, so are the constructs after [deploy]: the
    edges [deploy] adds never close a cycle, and a valid creation order
    exists. *)
Lemma creation_order_valid a now c0 c r :
  deploy a now c0 = (c, inr r) →
  valid_schedule c0 (ids c0) → valid_schedule c (ids c).
Proof.
  intros H (Hnd & _ & Hdep).
  pose proof (deploy_grows a now c0 c r H) as [Hids Hnd'].
  pose proof (deploy_edges a now c0 c r H) as Hd.
  split_and!; [auto|done|].
  intros x y. rewrite Hd, Hids. intros [Hin|Hin]%elem_of_app.
  - by apply before_app_l, Hdep.
  - by apply before_app_r, edges_point_back.
Qed.

(** What [deploy] leaves in the scope, for either kind of add-on. *)
Lemma deploy_ext a now c0 c r :
  deploy a now c0 = (c, inr r) →
  (∀ i x y, chain a !! i = Some x → chain a !! S i = Some y → (y, x) ∈ dependencies c) ∧
  kind_of <$> child c (primary_id a)
    = Some (Some (match a with Core _ => "Job" | Helm _ _ => "HelmChart" end)) ∧
  (cleanup_enabled a = true →
   (registration_id a, primary_id a) ∈ dependencies c ∧
   kind_of <$> child c (registration_id a) = Some (Some "CustomResource") ∧
   nonce c (registration_id a) = Some (pretty now)).
Proof.
  destruct a as [this|names this]; simpl; intros H.
  - apply core_deploy_ext in H as (_ & (_ & _ & Hd & _) & _ & _ & _ & Hap & Hcr).
    unfold core_edges in Hd. split_and!; [|done|].
    + intros i x y Hx Hy. rewrite Hd.
      destruct i as [|[|[|[|i]]]]; simpl in Hx, Hy; simplify_eq; set_solver.
    + intros Hen. rewrite Hd, Hen. split; [set_solver|by apply Hcr].
  - apply helm_deploy_ext in H as (_ & (_ & _ & Hd & _) & Hch & _ & Hcr).
    unfold helm_edges in Hd. split_and!; [|done|].
    + intros i x y Hx Hy. rewrite Hd.
      destruct (default true _); destruct i as [|[|i]]; simpl in Hx, Hy; simplify_eq.
      set_solver.
    + intros Hen. rewrite Hd, Hen. split; [set_solver|by apply Hcr].
Qed.

(** C4. After a successful [deploy], each resource of the add-on -
    namespace, service account, role binding, workload for the
    manifest-based add-on; namespace, chart for a chart-based add-on that
    creates its namespace - has a dependency edge on the one before it.
    Hence every order in which the deployment engine may create the
    constructs creates them in that order, and at no moment has a construct
    been created whose dependency has not.  Such an order exists: the order
    in which [deploy] adds the constructs is one, when the order of the
    constructs already in the scope was. *)
Theorem C4_creation_order a now c0 c r :
  deploy a now c0 = (c, inr r) →
  (∀ i x y, chain a !! i = Some x → chain a !! S i = Some y → (y, x) ∈ dependencies c) ∧
  (∀ order, valid_schedule c order →
     (∀ i j x y, chain a !! i = Some x → chain a !! j = Some y → (i < j)%nat →
                 before x y order) ∧
     (∀ k x y, (x, y) ∈ dependencies c → x ∈ take k order → y ∈ take k order)) ∧
  (λ id, child c id ≫= kind_of) <$> chain a
  = Some <$> match a with
             | Core _ => ["Namespace"; "ServiceAccount"; "ClusterRoleBinding"; "Job"]
             | Helm _ this =>
                 if default true (HelmAddOn.createNamespace (HelmAddOn.props this))
                 then ["Namespace"; "HelmChart"] else ["HelmChart"]
             end ∧
  (valid_schedule c0 (ids c0) → valid_schedule c (ids c)).
Proof.
  intros H. pose proof (deploy_ext a now c0 c r H) as (Hedges & _ & _).
  split_and!; [done| | |by eapply creation_order_valid].
  - intros order Hv. split.
    + apply chain_before; [apply Hv|].
      intros i x y Hx Hy. destruct Hv as (_ & _ & Hdep). apply Hdep. by eapply Hedges.
    + intros k x y. by apply schedule_prefix_closed.
  - assert (∀ id k, kind_of <$> child c id = Some (Some k) → child c id ≫= kind_of = Some k)
      as conv by (intros id k; destruct (child c id); simpl; naive_solver).
    destruct a as [this|names this]; simpl in *.
    + apply core_deploy_ext in H as (_ & _ & H1 & H2 & H3 & H4 & _).
      by rewrite (conv _ _ H1), (conv _ _ H2), (conv _ _ H3), (conv _ _ H4).
    + apply helm_deploy_ext in H as (_ & _ & Hch & Hns & _).
      destruct (default true _); simpl.
      * by rewrite (conv _ _ (Hns eq_refl)), (conv _ _ Hch).
      * by rewrite (conv _ _ Hch).
Qed.

(** C6 (as amended). In a scope where the names of its constructs are
    free, [deploy] returns a handle.  For the manifest-based add-on it is
    the workload manifest (the installation job), with or without cleanup.
    For a chart-based add-on it is the chart release when cleanup is
    disabled, and the cleanup custom resource when cleanup is enabled.  In
    every case the workload manifest or the chart release is in the scope
    after [deploy], and with cleanup enabled so is the cleanup custom
    resource, attached to it by a dependency edge: the teardown
    registration is made inside [deploy], not by the caller.  Without
    cleanup no part of the cleanup mechanism is created: [deploy] adds
    exactly the constructs of [new_ids]. *)
Theorem C6_returned_handle a now c0 :
  NoDup (new_ids a) → (∀ id, id ∈ new_ids a → id ∉ ids c0) →
  ∃ c r, deploy a now c0 = (c, inr r) ∧
    r = match a with
        | Core _ => primary_id a
        | Helm _ _ => if cleanup_enabled a then registration_id a else primary_id a
        end ∧
    kind_of <$> child c (primary_id a)
    = Some (Some (match a with Core _ => "Job" | Helm _ _ => "HelmChart" end)) ∧
    (cleanup_enabled a = true →
     kind_of <$> child c (registration_id a) = Some (Some "CustomResource") ∧
     (registration_id a, primary_id a) ∈ dependencies c) ∧
    ids c = ids c0 ++ new_ids a.
Proof.
  intros Hnd Hfresh. destruct (deploy_ok a now c0 Hnd Hfresh) as (c & r & H & Hids).
  exists c, r. split; [done|].
  pose proof (deploy_ext a now c0 c r H) as (_ & Hprim & Hcr).
  split_and!; [|done| |done].
  - destruct a as [this|names this]; simpl in *.
    + by apply core_deploy_ext in H as (-> & _).
    + by apply helm_deploy_ext in H as (-> & _).
  - intros Hen. by destruct (Hcr Hen) as (? & ? & _).
Qed.

(** C7 (as amended). The cleanup custom resource registered by a
    deployment carries, under "timestamp", the decimal text of Date.now()
    at that deployment and nothing else.  The nonces of two registrations
    therefore differ exactly when the two deployments read different clock
    values. *)
Theorem C7_nonce_follows_clock a1 a2 t1 t2 c1 c1' r1 c2 c2' r2 :
  cleanup_enabled a1 = true → cleanup_enabled a2 = true →
  deploy a1 t1 c1 = (c1', inr r1) → deploy a2 t2 c2 = (c2', inr r2) →
  ∃ n1 n2, nonce c1' (registration_id a1) = Some n1 ∧
           nonce c2' (registration_id a2) = Some n2 ∧
           n1 = pretty t1 ∧ n2 = pretty t2 ∧
           (n1 ≠ n2 ↔ t1 ≠ t2).
Proof.
  intros Hen1 Hen2 H1 H2.
  pose proof (deploy_ext a1 t1 c1 c1' r1 H1) as (_ & _ & Hc1).
  pose proof (deploy_ext a2 t2 c2 c2' r2 H2) as (_ & _ & Hc2).
  destruct (Hc1 Hen1) as (_ & _ & Hn1), (Hc2 Hen2) as (_ & _ & Hn2).
  exists (pretty t1), (pretty t2). split_and!; [done..|].
  split; intros Hne Heq; apply Hne; [by rewrite Heq|by apply (inj pretty) in Heq].
Qed.

(** C8. With cleanup enabled, a successful [deploy] leaves a cleanup custom
    resource with a dependency edge on the workload manifest or chart
    release.  Every creation order therefore creates the owner first, and
    every deletion order, being a creation order read backwards, removes
    the custom resource - which is when its handler receives Delete -
    before the owner is removed from the cluster. *)
Theorem C8_registration_after_owner a now c0 c r :
  cleanup_enabled a = true →
  deploy a now c0 = (c, inr r) →
  kind_of <$> child c (registration_id a) = Some (Some "CustomResource") ∧
  (registration_id a, primary_id a) ∈ dependencies c ∧
  (∀ order, valid_schedule c order →
            before (primary_id a) (registration_id a) order) ∧
  (∀ order, valid_teardown c order →
            before (registration_id a) (primary_id a) order).
Proof.
  intros Hen H. pose proof (deploy_ext a now c0 c r H) as (_ & _ & Hcr).
  destruct (Hcr Hen) as (Hedge & Hkind & _). split_and!; [done|done| |].
  - intros order (_ & _ & Hdep). by apply Hdep.
  - intros order (_ & _ & Hdep). apply before_reverse. by apply Hdep.
Qed.

(** ** Concrete deployments *)

(** The order in which [deploy] adds the constructs is itself a valid
    creation order, and its reverse a valid deletion order. *)
Example core_creation_order_valid :
  let c := (deploy (Core default_core) sample_now empty_cluster).1 in
  ids c = ["manifest-argocd-namespace"; "manifest-argocd-installer-sa";
           "manifest-argocd-installer-rb"; "argocd-apply"; "argocd-core-cleanup-lambda";
           "argocd-core-cleanup-provider"; "argocd-core-cleanup-cr"] ∧
  valid_schedule c (ids c) ∧ valid_teardown c (reverse (ids c)).
Proof.
  intros c.
  assert (ids c = ["manifest-argocd-namespace"; "manifest-argocd-installer-sa";
                   "manifest-argocd-installer-rb"; "argocd-apply";
                   "argocd-core-cleanup-lambda"; "argocd-core-cleanup-provider";
                   "argocd-core-cleanup-cr"]) as Hi
    by (vm_compute; reflexivity).
  assert (dependencies c = [("manifest-argocd-installer-sa", "manifest-argocd-namespace");
                            ("manifest-argocd-installer-rb", "manifest-argocd-installer-sa");
                            ("argocd-apply", "manifest-argocd-installer-rb");
                            ("argocd-core-cleanup-cr", "argocd-apply")]) as Hd
    by (vm_compute; reflexivity).
  assert (valid_schedule c (ids c)) as Hv.
  { split_and!.
    - rewrite Hi. apply (bool_decide_unpack _). vm_compute. exact I.
    - done.
    - intros a b Hin. rewrite Hd in Hin. rewrite Hi.
      repeat (apply elem_of_cons in Hin as [[= -> ->]|Hin]);
        [exists 0%nat, 1%nat|exists 1%nat, 2%nat|exists 2%nat, 3%nat
        |exists 3%nat, 6%nat|by apply elem_of_nil in Hin];
        (split_and!; [reflexivity|reflexivity|lia]). }
  split_and!; [done|done|]. unfold valid_teardown. by rewrite reverse_involutive.
Qed.

(** The property bag that [deploy] registers holds every property the
    script of the same add-on reads. *)
Example registered_bag_complete :
  let c := (deploy (Helm ArgoCD_names default_helm) sample_now empty_cluster).1 in
  ∃ tok props ty,
    child c "argocd-cleanup-cr" = Some (CustomResource tok props ty) ∧
    bag ArgoCDScript props "eks-builder-stack" "us-east-1" "argocd" "argocd" ∧
    props !! "timestamp" = Some "1730000000000".
Proof.
  eexists _, _, _. split; [vm_compute; reflexivity|].
  split; [|vm_compute; reflexivity].
  unfold bag. split_and!; [vm_compute; reflexivity..|intros _; vm_compute; reflexivity].
Qed.

(** The names in the scope are those of aws-cdk-lib: a construct named
    "argocd" does not stand in the way of ArgoCDAddOn, one named
    "chart-argocd" does, and what was created before the clash stays in
    the scope. *)
Example chart_name_clash :
  let a := Helm ArgoCD_names default_helm in
  let taken id := {| clusterName := "eks-builder-stack"; region := "us-east-1";
                     children := [(id, Provider "other")]; dependencies := [] |} in
  (deploy a sample_now (taken "argocd")).2 = inr "argocd-cleanup-cr" ∧
  (∃ error, (deploy a sample_now (taken "chart-argocd")).2 = inl error) ∧
  ids (deploy a sample_now (taken "chart-argocd")).1
  = ["chart-argocd"; "manifest-argocd-namespace"].
Proof. split_and!; [|eexists|]; vm_compute; reflexivity. Qed.

(** Counterexample to C6 as stated.  With its default properties ArgoCDAddOn returns
    the cleanup custom resource; the chart release is another construct. *)
Lemma C6_counterexample :
  let a := Helm ArgoCD_names default_helm in
  let result := deploy a sample_now empty_cluster in
  result.2 = inr "argocd-cleanup-cr" ∧
  kind_of <$> child result.1 "argocd-cleanup-cr" = Some (Some "CustomResource") ∧
  primary_id a = "chart-argocd" ∧
  kind_of <$> child result.1 "chart-argocd" = Some (Some "HelmChart").
Proof. split_and!; vm_compute; reflexivity. Qed.

(** Counterexample to C7 as stated.  The add-on is deployed twice, the second time
    into another namespace, and the clock reads the same value both times:
    the two registrations differ, their nonces do not. *)
Lemma C7_counterexample :
  let a1 := Core default_core in
  let a2 := Core (ArgoCDCoreAddOn.new
                    {| ArgoCDCoreAddOn.namespace := Some "gitops";
                       ArgoCDCoreAddOn.version := None;
                       ArgoCDCoreAddOn.cleanupEnabled := None |}) in
  let c1 := (deploy a1 sample_now empty_cluster).1 in
  let c2 := (deploy a2 sample_now empty_cluster).1 in
  ∃ p1 p2,
    child c1 (registration_id a1)
    = Some (CustomResource "argocd-core-cleanup-provider" p1 "Custom::ArgoCDCoreCleanup") ∧
    child c2 (registration_id a2)
    = Some (CustomResource "argocd-core-cleanup-provider" p2 "Custom::ArgoCDCoreCleanup") ∧
    p1 !! "namespace" = Some "argocd" ∧ p2 !! "namespace" = Some "gitops" ∧
    nonce c1 (registration_id a1) = Some "1730000000000" ∧
    nonce c2 (registration_id a2) = Some "1730000000000".
Proof. eexists _, _. split_and!; vm_compute; reflexivity. Qed.

(** Witness for C4: the manifest-based add-on in an empty scope. *)
Lemma C4_creation_order_witness :
  let a := Core default_core in
  let c := (deploy a sample_now empty_cluster).1 in
  deploy a sample_now empty_cluster = (c, inr "argocd-apply") ∧
  (∀ i x y, chain a !! i = Some x → chain a !! S i = Some y → (y, x) ∈ dependencies c) ∧
  (∀ order, valid_schedule c order →
     (∀ i j x y, chain a !! i = Some x → chain a !! j = Some y → (i < j)%nat →
                 before x y order) ∧
     (∀ k x y, (x, y) ∈ dependencies c → x ∈ take k order → y ∈ take k order)) ∧
  (λ id, child c id ≫= kind_of) <$> chain a
  = Some <$> ["Namespace"; "ServiceAccount"; "ClusterRoleBinding"; "Job"] ∧
  (valid_schedule empty_cluster (ids empty_cluster) → valid_schedule c (ids c)).
Proof.
  intros a c.
  assert (deploy a sample_now empty_cluster = (c, inr "argocd-apply")) as H
    by (vm_compute; reflexivity).
  split; [exact H|].
  exact (C4_creation_order a sample_now empty_cluster c "argocd-apply" H).
Defined.

(** Witness for C6: ArgoRolloutsAddOn with its default properties. *)
Lemma C6_returned_handle_witness :
  let a := Helm ArgoRollouts_names default_helm in
  NoDup (new_ids a) ∧ (∀ id, id ∈ new_ids a → id ∉ ids empty_cluster) ∧
  ∃ c r, deploy a sample_now empty_cluster = (c, inr r) ∧
    r = "argo-rollouts-cleanup-cr" ∧
    kind_of <$> child c "chart-argo-rollouts" = Some (Some "HelmChart") ∧
    kind_of <$> child c "argo-rollouts-cleanup-cr" = Some (Some "CustomResource") ∧
    ("argo-rollouts-cleanup-cr", "chart-argo-rollouts") ∈ dependencies c ∧
    ids c = ["manifest-argo-rollouts-namespace"; "chart-argo-rollouts";
             "argo-rollouts-cleanup-lambda"; "argo-rollouts-cleanup-provider";
             "argo-rollouts-cleanup-cr"].
Proof.
  intros a.
  assert (NoDup (new_ids a)) as Hnd by (apply (bool_decide_unpack _); vm_compute; exact I).
  assert (∀ id, id ∈ new_ids a → id ∉ ids empty_cluster) as Hfresh
    by (intros id _; apply not_elem_of_nil).
  split_and!; [exact Hnd|exact Hfresh|].
  destruct (C6_returned_handle a sample_now empty_cluster Hnd Hfresh)
    as (c & r & H & Hr & Hk & Hcr & Hids).
  exists c, r.
  split_and!; [exact H|exact Hr|exact Hk
              |exact (proj1 (Hcr eq_refl))|exact (proj2 (Hcr eq_refl))|exact Hids].
Defined.

(** Witness for C7: two deployments one minute apart. *)
Lemma C7_nonce_follows_clock_witness :
  let a := Core default_core in
  let c1 := (deploy a sample_now empty_cluster).1 in
  let c2 := (deploy a (sample_now + 60000) empty_cluster).1 in
  cleanup_enabled a = true ∧
  deploy a sample_now empty_cluster = (c1, inr "argocd-apply") ∧
  deploy a (sample_now + 60000) empty_cluster = (c2, inr "argocd-apply") ∧
  ∃ n1 n2, nonce c1 (registration_id a) = Some n1 ∧
           nonce c2 (registration_id a) = Some n2 ∧
           n1 = pretty sample_now ∧ n2 = pretty (sample_now + 60000) ∧
           (n1 ≠ n2 ↔ sample_now ≠ sample_now + 60000).
Proof.
  intros a c1 c2.
  assert (deploy a sample_now empty_cluster = (c1, inr "argocd-apply")) as H1
    by (vm_compute; reflexivity).
  assert (deploy a (sample_now + 60000) empty_cluster = (c2, inr "argocd-apply")) as H2
    by (vm_compute; reflexivity).
  split_and!; [reflexivity|exact H1|exact H2|].
  exact (C7_nonce_follows_clock a a _ _ _ _ _ _ _ _ eq_refl eq_refl H1 H2).
Defined.

(** Witness for C8: ArgoCDAddOn with its default properties. *)
Lemma C8_registration_after_owner_witness :
  let a := Helm ArgoCD_names default_helm in
  let c := (deploy a sample_now empty_cluster).1 in
  cleanup_enabled a = true ∧
  deploy a sample_now empty_cluster = (c, inr "argocd-cleanup-cr") ∧
  kind_of <$> child c (registration_id a) = Some (Some "CustomResource") ∧
  (registration_id a, primary_id a) ∈ dependencies c ∧
  (∀ order, valid_schedule c order →
            before (primary_id a) (registration_id a) order) ∧
  (∀ order, valid_teardown c order →
            before (registration_id a) (primary_id a) order).
Proof.
  intros a c.
  assert (deploy a sample_now empty_cluster = (c, inr "argocd-cleanup-cr")) as H
    by (vm_compute; reflexivity).
  split_and!; [reflexivity|exact H|..];
    apply (C8_registration_after_owner a sample_now empty_cluster c _ eq_refl H).
Defined.

(** * Further properties of the handlers *)

Section HandlerTotal.
Context {World : Type} (spawn : World → list string → World * proc_result).



(** A Delete event whose bag lacks a property stops at the first one it
    lacks, before anything is spawned. *)
Lemma handler_delete_missing sc ev w d k :
  delete_event ev d → first_missing (required_keys sc) d = Some k →
  let s := invoke spawn sc ev w in
  world s = w ∧ calls s = [] ∧ at_level WARNING (log s) = [] ∧
  at_level ERROR (log s) = [failure_log (KeyError k)] ∧
  sent s = [failure_response (KeyError k)].
Proof.
  intros [H1 H2] Hk. destruct sc; simpl in Hk; run; rewrite H1, H2; simpl.
  all: repeat match type of Hk with
              | context [@lookup string string _ _ ?key ?bag] =>
                  destruct (@lookup string string _ _ key bag) as [?|]; simpl
              end; by simplify_eq.
Qed.

Lemma first_missing_None sc d :
  first_missing (required_keys sc) d = None → ∃ cn rg ns rel, bag sc d cn rg ns rel.
Proof.
  unfold bag. destruct sc; simpl; intros H;
    repeat match type of H with
           | context [@lookup string string _ _ ?key ?bag] =>
               destruct (@lookup string string _ _ key bag) as [?|]; simpl in H
           end; try done.
  - by eexists _, _, _, "".
  - by eexists _, _, _, _.
  - by eexists _, _, _, _.
Qed.

Lemma first_missing_agree keys d d' :
  (∀ k, k ∈ keys → d !! k = d' !! k) → first_missing keys d = first_missing keys d'.
Proof.
  induction keys as [|k keys IH]; intros H; simpl; [done|].
  rewrite <- (H k) by set_solver. destruct (d !! k); [|done]. apply IH. set_solver.
Qed.

(** X2. A Delete event whose property bag lacks a property the script
    reads is answered FAILED with the KeyError of the first missing
    property in reading order (clusterName, region, namespace,
    releaseName); the error is logged, nothing is spawned and the cluster
    is not touched. *)
Theorem handler_missing_property sc ev w d k :
  delete_event ev d → first_missing (required_keys sc) d = Some k →
  let s := invoke spawn sc ev w in
  sent s = [(FAILED, {[ "Error" := [FmtExn (KeyError k)] ]})] ∧
  at_level ERROR (log s) = [(ERROR, [Lit "Error: "; FmtExn (KeyError k)])] ∧
  calls s = [] ∧ world s = w.
Proof.
  intros Hev Hk s.
  by destruct (handler_delete_missing sc ev w d k Hev Hk) as (? & ? & _ & ? & ?).
Qed.

(** X3. An event without RequestType, or without ResourceProperties, is
    answered FAILED with the KeyError of the missing entry - also when it is
    a Create or an Update event, since both entries are read before the
    request type is looked at.  Nothing is spawned. *)
Theorem handler_malformed_event sc ev w :
  ev !! "RequestType" = None ∨ ev !! "ResourceProperties" = None →
  let s := invoke spawn sc ev w in
  let missing := match ev !! "RequestType" with
                 | None => "RequestType"
                 | Some _ => "ResourceProperties"
                 end in
  sent s = [(FAILED, {[ "Error" := [FmtExn (KeyError missing)] ]})] ∧
  calls s = [] ∧ world s = w.
Proof.
  intros H. destruct sc; run.
  all: destruct (ev !! "RequestType") as [rt|]; simpl; [|done].
  all: destruct H as [H|H]; [done|]; rewrite H; done.
Qed.

(** X4. Only the exact string "Delete" selects the cleanup.  Any other
    request type - another spelling, an unknown type, a value that is not a
    string - is acknowledged with SUCCESS like a Create: nothing is spawned
    and the cluster is not touched. *)
Theorem handler_other_request_type sc ev w rt props :
  ev !! "RequestType" = Some rt → rt ≠ Str "Delete" →
  ev !! "ResourceProperties" = Some props →
  let s := invoke spawn sc ev w in
  sent s = [(SUCCESS, {[ "Message" := [Lit "Operation "; Fmt rt; Lit " processed"] ]})] ∧
  calls s = [] ∧ world s = w.
Proof.
  intros Hrt Hne Hp s.
  assert (ev !! "RequestType" ≠ Some (Str "Delete")) as Hne' by congruence.
  pose proof (handler_other spawn sc ev w Hne') as H. simpl in H. fold s in H.
  rewrite Hrt, Hp in H. by destruct H as (? & ? & _ & _ & ?).
Qed.

(** X5. The handler reads clusterName, region, namespace and, in the
    chart-based scripts, releaseName, and nothing else: two Delete events
    whose bags agree on these properties - they may differ in timestamp or
    in any other entry - make the handler spawn the same commands with the
    same results, leave the same world and send the same response. *)
Theorem handler_reads_only_its_properties sc ev ev' d d' w :
  delete_event ev d → delete_event ev' d' →
  (∀ k, k ∈ required_keys sc → d !! k = d' !! k) →
  let s := invoke spawn sc ev w in
  let s' := invoke spawn sc ev' w in
  calls s = calls s' ∧ sent s = sent s' ∧ world s = world s' ∧
  at_level WARNING (log s) = at_level WARNING (log s').
Proof.
  intros Hev Hev' Hagree. cbv zeta.
  pose proof (first_missing_agree (required_keys sc) d d' Hagree) as Hm.
  destruct (first_missing (required_keys sc) d) as [k|] eqn:Hk.
  - symmetry in Hm.
    destruct (handler_delete_missing sc ev w d k Hev Hk) as (H1 & H2 & H3 & _ & H4).
    destruct (handler_delete_missing sc ev' w d' k Hev' Hm) as (H1' & H2' & H3' & _ & H4').
    cbv zeta in *. by rewrite H1, H2, H3, H4, H1', H2', H3', H4'.
  - apply first_missing_None in Hk as (cn & rg & ns & rel & Hbag).
    assert (bag sc d' cn rg ns rel) as Hbag'.
    { destruct Hbag as (Hc & Hr & Hn & Hrel). unfold bag.
      rewrite <- !Hagree by (destruct sc; set_solver).
      split_and!; [done..|]. intros Hsc. rewrite <- Hagree by (destruct sc; set_solver).
      by apply Hrel. }
    pose proof (handler_delete spawn sc ev w d cn rg ns rel Hev Hbag) as H.
    pose proof (handler_delete spawn sc ev' w d' cn rg ns rel Hev' Hbag') as H'.
    cbv zeta in H, H'.
    destruct (spawn w (update_kubeconfig cn rg)) as [w1 r1].
    destruct (raised _ r1) as [e|].
    + destruct H as (H1 & H2 & H3 & _ & H4), H' as (H1' & H2' & H3' & _ & H4').
      by rewrite H1, H2, H3, H4, H1', H2', H3', H4'.
    + destruct (best_effort spawn (plan sc ns rel) w1) as [[[w2 tr] ws] e].
      destruct H as (H1 & H2 & H3 & H), H' as (H1' & H2' & H3' & H').
      rewrite H1, H2, H3, H1', H2', H3'.
      destruct e; destruct H as [_ ->], H' as [_ ->]; done.
Qed.

End HandlerTotal.

Lemma delete_event_of_delete d : delete_event (delete_event_of d) d.
Proof. split; [apply lookup_insert_eq|]. unfold delete_event_of.
  rewrite lookup_insert_ne by done. apply lookup_insert_eq. Defined.

(** Witness for X2: the bag lacks region. *)
Lemma handler_missing_property_witness :
  let d := delete "region" sample_bag in
  delete_event (delete_event_of d) d ∧
  first_missing (required_keys ArgoCDScript) d = Some "region" ∧
  let s := invoke sim_host ArgoCDScript (delete_event_of d) sim_cluster in
  sent s = [(FAILED, {[ "Error" := [FmtExn (KeyError "region")] ]})] ∧
  at_level ERROR (log s) = [(ERROR, [Lit "Error: "; FmtExn (KeyError "region")])] ∧
  calls s = [] ∧ world s = sim_cluster.
Proof.
  intros d.
  assert (first_missing (required_keys ArgoCDScript) d = Some "region") as Hk
    by (vm_compute; reflexivity).
  split; [exact (delete_event_of_delete d)|]. split; [exact Hk|].
  exact (handler_missing_property sim_host ArgoCDScript (delete_event_of d) sim_cluster
           d "region" (delete_event_of_delete d) Hk).
Defined.

(** Witness for X3: a Create event without ResourceProperties. *)
Lemma handler_malformed_event_witness :
  let ev : gmap string obj := {[ "RequestType" := Str "Create" ]} in
  (ev !! "RequestType" = None ∨ ev !! "ResourceProperties" = None) ∧
  let s := invoke sim_host ArgoCDCoreScript ev sim_cluster in
  sent s = [(FAILED, {[ "Error" := [FmtExn (KeyError "ResourceProperties")] ]})] ∧
  calls s = [] ∧ world s = sim_cluster.
Proof.
  intros ev.
  assert (ev !! "RequestType" = None ∨ ev !! "ResourceProperties" = None) as H
    by (right; vm_compute; reflexivity).
  split; [exact H|].
  exact (handler_malformed_event sim_host ArgoCDCoreScript ev sim_cluster H).
Defined.

(** Witness for X4: the request type is spelled "delete". *)
Lemma handler_other_request_type_witness :
  sample_event "delete" !! "RequestType" = Some (Str "delete") ∧
  Str "delete" ≠ Str "Delete" ∧
  sample_event "delete" !! "ResourceProperties" = Some (Dict sample_bag) ∧
  let s := invoke sim_host ArgoCDScript (sample_event "delete") sim_cluster in
  sent s = [(SUCCESS, {[ "Message" := [Lit "Operation "; Fmt (Str "delete");
                                      Lit " processed"] ]})] ∧
  calls s = [] ∧ world s = sim_cluster.
Proof.
  assert (sample_event "delete" !! "RequestType" = Some (Str "delete")) as H1
    by (vm_compute; reflexivity).
  assert (Str "delete" ≠ Str "Delete") as H2 by discriminate.
  assert (sample_event "delete" !! "ResourceProperties" = Some (Dict sample_bag)) as H3
    by (vm_compute; reflexivity).
  split; [exact H1|]. split; [exact H2|]. split; [exact H3|].
  exact (handler_other_request_type sim_host ArgoCDScript (sample_event "delete")
           sim_cluster _ _ H1 H2 H3).
Defined.

(** Witness for X5: the same registration with a later timestamp. *)
Lemma handler_reads_only_its_properties_witness :
  let d' := <["timestamp" := "1730000060000"]> sample_bag in
  delete_event (sample_event "Delete") sample_bag ∧
  delete_event (delete_event_of d') d' ∧
  (∀ k, k ∈ required_keys ArgoCDScript → sample_bag !! k = d' !! k) ∧
  let s := invoke sim_host ArgoCDScript (sample_event "Delete") sim_cluster in
  let s' := invoke sim_host ArgoCDScript (delete_event_of d') sim_cluster in
  calls s = calls s' ∧ sent s = sent s' ∧ world s = world s' ∧
  at_level WARNING (log s) = at_level WARNING (log s').
Proof.
  intros d'.
  assert (∀ k, k ∈ required_keys ArgoCDScript → sample_bag !! k = d' !! k) as Hagree.
  { intros k Hk. simpl in Hk.
    repeat (apply elem_of_cons in Hk as [->|Hk]); try (by apply elem_of_nil in Hk);
      vm_compute; reflexivity. }
  split; [exact sample_delete_event|]. split; [exact (delete_event_of_delete d')|].
  split; [exact Hagree|].
  exact (handler_reads_only_its_properties sim_host ArgoCDScript (sample_event "Delete")
           (delete_event_of d') sample_bag d' sim_cluster
           sample_delete_event (delete_event_of_delete d') Hagree).
Defined.
(** * Further properties of [deploy] *)

Lemma adds_refl c : adds c c [].
Proof. split_and!; [by rewrite app_nil_r|constructor|by intros ? ?%elem_of_nil]. Qed.

Lemma adds_trans c c1 c2 n1 n2 :
  adds c c1 n1 → adds c1 c2 n2 → adds c c2 (n1 ++ n2).
Proof.
  intros (I1 & N1 & F1) (I2 & N2 & F2). split_and!.
  - by rewrite I2, I1, app_assoc.
  - apply NoDup_app. split_and!; [done| |done].
    intros x Hx1 Hx2. apply (F2 x Hx2). rewrite I1. set_solver.
  - intros id [Hin|Hin]%elem_of_app; [by apply F1|].
    intros Hid. apply (F2 id Hin). rewrite I1. set_solver.
Qed.

Lemma construct_adds id r c c' x :
  construct id r c = (c', inr x) → adds c c' [id].
Proof.
  intros (_ & Hid & Hids & _)%construct_ext.
  split_and!; [done|apply NoDup_singleton|by intros ? ->%list_elem_of_singleton].
Qed.

Lemma addDependency_adds a b c c' x :
  addDependency a b c = (c', inr x) → adds c c' [].
Proof.
  intros [Hids _]%addDependency_ext.
  split_and!; [by rewrite app_nil_r|constructor|by intros ? ?%elem_of_nil].
Qed.

Lemma createCleanupProvider_adds l p code c c' x :
  createCleanupProvider l p code c = (c', inr x) → adds c c' [l; p].
Proof.
  intros (_ & Hids & Hl & Hp & _)%createCleanupProvider_ext.
  split_and!; [done| |].
  - apply NoDup_cons. split; [|apply NoDup_singleton].
    intros ->%list_elem_of_singleton. apply Hp. set_solver.
  - intros id [->|[->|[]%elem_of_nil]%elem_of_cons]%elem_of_cons; [done|].
    intros Hid. apply Hp. set_solver.
Qed.

Lemma deploy_adds a now c0 c r :
  deploy a now c0 = (c, inr r) → adds c0 c (new_ids a).
Proof.
  destruct a as [this|names this];
    unfold new_ids, chain, cleanup_enabled, deploy; cbv beta iota.
  - unfold ArgoCDCoreAddOn.deploy, ArgoCDCoreAddOn.setupCleanupMechanism, addManifest.
    cbv zeta. intros H. scope_names.
    apply bind_inr in H as (c1 & ? & G1%construct_adds & H).
    apply bind_inr in H as (c2 & ? & G2%construct_adds & H).
    apply bind_inr in H as (c3 & ? & G3%construct_adds & H).
    apply bind_inr in H as (c4 & ? & G4%construct_adds & H).
    apply bind_inr in H as (c5 & ? & G5%addDependency_adds & H).
    apply bind_inr in H as (c6 & ? & G6%addDependency_adds & H).
    apply bind_inr in H as (c7 & ? & G7%addDependency_adds & H).
    apply bind_inr in H as (c8 & ? & H8 & H). apply ret_inr in H as [-> _].
    pose proof (adds_trans _ _ _ _ _ G1 (adds_trans _ _ _ _ _ G2
                 (adds_trans _ _ _ _ _ G3 (adds_trans _ _ _ _ _ G4
                   (adds_trans _ _ _ _ _ G5 (adds_trans _ _ _ _ _ G6 G7))))))
      as G07. simpl in G07.
    eapply adds_trans; [exact G07|].
    destruct (ArgoCDCoreAddOn.this_cleanupEnabled this).
    + apply bind_inr in H8 as (c9 & ? & H9 & H8). apply ret_inr in H8 as [-> _].
      apply bind_inr in H9 as (d1 & ? & P1%createCleanupProvider_adds & H9).
      apply bind_inr in H9 as (d2 & ? & [-> _]%gets_inr & H9).
      apply bind_inr in H9 as (d3 & ? & P3%construct_adds & H9).
      apply bind_inr in H9 as (d4 & ? & P4%addDependency_adds & H9).
      apply ret_inr in H9 as [-> _].
      exact (adds_trans _ _ _ _ _ P1 (adds_trans _ _ _ _ _ P3 P4)).
    + apply ret_inr in H8 as [-> _]. apply adds_refl.
  - unfold HelmAddOn.deploy, HelmAddOn.setupCleanupMechanism, addManifest, addHelmChart.
    cbv zeta. intros H.
    apply bind_inr in H as (c1 & chart & H1 & H).
    apply bind_inr in H as (c5 & ? & H5 & H). apply ret_inr in H as [-> _].
    eapply adds_trans.
    + destruct (default true _).
      * apply bind_inr in H1 as (c2 & ? & G2%construct_adds & H1).
        apply bind_inr in H1 as (c3 & ? & G3%construct_adds & H1).
        apply bind_inr in H1 as (c4 & ? & G4%addDependency_adds & H1).
        apply ret_inr in H1 as [-> _].
        exact (adds_trans _ _ _ _ _ G2 (adds_trans _ _ _ _ _ G3 G4)).
      * by eapply construct_adds.
    + destruct (HelmAddOn.this_cleanupEnabled this).
      * apply bind_inr in H5 as (d1 & ? & P1%createCleanupProvider_adds & H5).
        apply bind_inr in H5 as (d2 & ? & [-> _]%gets_inr & H5).
        apply bind_inr in H5 as (d3 & ? & P3%construct_adds & H5).
        apply bind_inr in H5 as (d4 & ? & P4%addDependency_adds & H5).
        apply ret_inr in H5 as [-> _].
        exact (adds_trans _ _ _ _ _ P1 (adds_trans _ _ _ _ _ P3 P4)).
      * apply ret_inr in H5 as [-> _]. apply adds_refl.
Qed.

Lemma deploy_extends a now c0 c r :
  deploy a now c0 = (c, inr r) → extends c0 c (edges a).
Proof.
  destruct a as [this|names this]; simpl; intros H.
  - by apply core_deploy_ext in H as (_ & ? & _).
  - by apply helm_deploy_ext in H as (_ & ? & _).
Qed.

Lemma primary_id_new a : primary_id a ∈ new_ids a.
Proof.
  unfold new_ids. apply elem_of_app. left.
  destruct a as [this|names this]; simpl; [set_solver|].
  destruct (default true _); set_solver.
Qed.

(** X6. The exact footprint of a successful [deploy]: it appends its
    constructs, under the names of [new_ids] and in that order, and its
    dependency edges to the scope, and leaves everything else as it was -
    every construct that was in the scope is still there unchanged, and the
    name and the region of the cluster are the same. *)
Theorem deploy_footprint a now c0 c r :
  deploy a now c0 = (c, inr r) →
  ids c = ids c0 ++ new_ids a ∧
  dependencies c = dependencies c0 ++ edges a ∧
  clusterName c = clusterName c0 ∧ region c = region c0 ∧
  (∀ id y, child c0 id = Some y → child c id = Some y).
Proof.
  intros H. pose proof (deploy_adds a now c0 c r H) as (Hids & _).
  pose proof (deploy_extends a now c0 c r H) as (Hn & Hr & Hd & Hk). done.
Qed.

(** X7. [deploy] returns if and only if the names of its constructs are
    free in the scope and differ from one another; otherwise it throws. *)
Theorem deploy_returns_iff_names_free a now c0 :
  (∃ c r, deploy a now c0 = (c, inr r)) ↔
  (NoDup (new_ids a) ∧ ∀ id, id ∈ new_ids a → id ∉ ids c0).
Proof.
  split.
  - intros (c & r & H). by apply deploy_adds in H as (_ & ? & ?).
  - intros [Hnd Hfresh]. destruct (deploy_ok a now c0 Hnd Hfresh) as (c & r & H & _). eauto.
Qed.

(** X8. Two add-ons that give a construct the same name cannot both be
    deployed into one scope: after the first [deploy] has returned, the
    second one throws.  In particular an add-on cannot be deployed twice
    into the same scope. *)
Theorem deploy_shared_name_throws a t1 t2 c0 c r :
  deploy a t1 c0 = (c, inr r) →
  (∀ b id, id ∈ new_ids a → id ∈ new_ids b → ∃ c' error, deploy b t2 c = (c', inl error)) ∧
  ∃ c' error, deploy a t2 c = (c', inl error).
Proof.
  intros H. apply deploy_adds in H as (Hids & _).
  assert (∀ b id, id ∈ new_ids a → id ∈ new_ids b →
                  ∃ c' error, deploy b t2 c = (c', inl error)) as Hclash.
  { intros b id Ha Hb. destruct (deploy b t2 c) as [c' [error|r']] eqn:E; [eauto|].
    apply deploy_adds in E as (_ & _ & Hfresh). exfalso.
    apply (Hfresh id Hb). rewrite Hids. set_solver. }
  split; [done|]. apply (Hclash a (primary_id a)); apply primary_id_new.
Qed.

(** X9. Add-ons whose construct names are different compose: deployed
    one after the other into a scope where all these names are free, both
    return; the scope then holds the constructs and the edges of both, in
    that order, and the order of creation is still a valid schedule. *)
Theorem deploy_compose a b t1 t2 c0 :
  NoDup (new_ids a ++ new_ids b) →
  (∀ id, id ∈ new_ids a ++ new_ids b → id ∉ ids c0) →
  ∃ c1 r1 c2 r2,
    deploy a t1 c0 = (c1, inr r1) ∧ deploy b t2 c1 = (c2, inr r2) ∧
    ids c2 = ids c0 ++ new_ids a ++ new_ids b ∧
    dependencies c2 = dependencies c0 ++ edges a ++ edges b ∧
    (valid_schedule c0 (ids c0) → valid_schedule c2 (ids c2)).
Proof.
  intros Hnd Hfresh. apply NoDup_app in Hnd as (Hnda & Hdisj & Hndb).
  destruct (deploy_ok a t1 c0 Hnda) as (c1 & r1 & H1 & I1); [set_solver|].
  destruct (deploy_ok b t2 c1 Hndb) as (c2 & r2 & H2 & I2).
  { intros id Hb. rewrite I1. apply not_elem_of_app. split; [set_solver|].
    intros Ha. by apply (Hdisj id). }
  exists c1, r1, c2, r2. split_and!; [done|done| | |].
  - by rewrite I2, I1, app_assoc.
  - apply deploy_edges in H1, H2. by rewrite H2, H1, app_assoc.
  - intros Hv. eapply creation_order_valid; [exact H2|].
    by eapply creation_order_valid.
Qed.

(** ** [deploy] never removes anything *)












(** ** The cleanup mechanism that [deploy] registers *)







(** ** [deploy] and the handler together *)

Section EndToEnd.
Context {World : Type} (spawn : World → list string → World * proc_result).


End EndToEnd.

(** * The cluster blueprint *)

(** X13. The platform team of the blueprint lists the roles of
    platformTeams followed by those of platformTeamArns, duplicates
    included, under the name "platform"; no team is created exactly when
    neither property names a role.  The tests on the lengths of the two
    lists do not change the outcome. *)
Theorem platformTeam_roles props :
  let roles := default [] (KarpernterConstruct.platformTeams props)
               ++ default [] (KarpernterConstruct.platformTeamArns props) in
  KarpernterConstruct.platformTeam props
  = match roles with
    | [] => None
    | _ => Some {| KarpernterConstruct.name := "platform";
                   KarpernterConstruct.userRoleArns := roles |}
    end.
Proof.
  unfold KarpernterConstruct.platformTeam, KarpernterConstruct.present.
  destruct props as [[[|x l]|] [[|y l']|]]; simpl; rewrite ?app_nil_r;
    repeat case_bool_decide; simpl in *; try lia; done.
Qed.

(** X14. CloudFormation deletes in the reverse of a creation order, so
    every deletion order takes the resources of an add-on down from the
    workload or chart back to the namespace, and with cleanup enabled it
    deletes the cleanup custom resource - which is when the handler runs -
    before any of them. *)
Theorem teardown_order a now c0 c r :
  deploy a now c0 = (c, inr r) →
  ∀ order, valid_teardown c order →
    (∀ i j x y, chain a !! i = Some x → chain a !! j = Some y → (i < j)%nat →
                before y x order) ∧
    (cleanup_enabled a = true →
     ∀ x, x ∈ chain a → before (registration_id a) x order).
Proof.
  intros H order Hv. pose proof (deploy_ext a now c0 c r H) as (Hedges & _ & Hcr).
  pose proof Hv as (Hnd & _ & Hdep).
  assert (∀ i j x y, chain a !! i = Some x → chain a !! j = Some y → (i < j)%nat →
                     before x y (reverse order)) as Hchain.
  { apply chain_before; [done|]. intros i x y Hx Hy. apply Hdep. by eapply Hedges. }
  split.
  - intros i j x y Hx Hy Hlt. apply before_reverse. by eapply Hchain.
  - intros Hen x Hx. apply before_reverse.
    destruct (Hcr Hen) as (Hedge & _). apply Hdep in Hedge.
    assert (∃ k, chain a !! k = Some (primary_id a) ∧ S k = length (chain a))
      as (k & Hk & Hlen).
    { destruct a as [this|names this]; simpl; [by exists 3%nat|].
      destruct (default true _); [by exists 1%nat|by exists 0%nat]. }
    apply list_elem_of_lookup in Hx as [i Hi].
    pose proof (lookup_lt_Some _ _ _ Hi) as Hlt.
    destruct (decide (i = k)) as [->|Hne].
    + rewrite Hk in Hi. by injection Hi as <-.
    + eapply before_trans; [done| |exact Hedge].
      eapply (Hchain i k); [done|done|lia].
Qed.

(** * Concrete runs for the further properties *)

(** Witness for X6: the manifest-based add-on in a scope that holds
    another chart. *)
Lemma deploy_footprint_witness :
  let a := Core default_core in
  let c := (deploy a sample_now busy_cluster).1 in
  deploy a sample_now busy_cluster = (c, inr "argocd-apply") ∧
  ids c = ids busy_cluster ++ new_ids a ∧
  dependencies c = dependencies busy_cluster ++ edges a ∧
  clusterName c = clusterName busy_cluster ∧ region c = region busy_cluster ∧
  (∀ id y, child busy_cluster id = Some y → child c id = Some y).
Proof.
  intros a c.
  assert (deploy a sample_now busy_cluster = (c, inr "argocd-apply")) as H
    by (vm_compute; reflexivity).
  split; [exact H|].
  exact (deploy_footprint a sample_now busy_cluster c _ H).
Defined.

(** Witness for X8: ArgoCDAddOn after ArgoCDCoreAddOn - both create the
    manifest of the namespace under the same name. *)
Lemma deploy_shared_name_throws_witness :
  let a := Core default_core in
  let c := (deploy a sample_now empty_cluster).1 in
  deploy a sample_now empty_cluster = (c, inr "argocd-apply") ∧
  "manifest-argocd-namespace" ∈ new_ids a ∧
  "manifest-argocd-namespace" ∈ new_ids (Helm ArgoCD_names default_helm) ∧
  (∃ c' error, deploy (Helm ArgoCD_names default_helm) (sample_now + 1) c
               = (c', inl error)) ∧
  (∃ c' error, deploy a (sample_now + 1) c = (c', inl error)).
Proof.
  intros a c.
  assert (deploy a sample_now empty_cluster = (c, inr "argocd-apply")) as H
    by (vm_compute; reflexivity).
  assert ("manifest-argocd-namespace" ∈ new_ids a) as Ha
    by (apply (bool_decide_unpack _); vm_compute; exact I).
  assert ("manifest-argocd-namespace" ∈ new_ids (Helm ArgoCD_names default_helm)) as Hb
    by (apply (bool_decide_unpack _); vm_compute; exact I).
  destruct (deploy_shared_name_throws a sample_now (sample_now + 1) empty_cluster c _ H)
    as [Hclash Htwice].
  split; [exact H|]. split; [exact Ha|]. split; [exact Hb|].
  split; [exact (Hclash _ _ Ha Hb)|exact Htwice].
Defined.

(** Witness for X9: the two add-ons of the blueprint, in the order of its
    list. *)
Lemma deploy_compose_witness :
  let a := KarpernterConstruct.argoRollouts in
  let b := KarpernterConstruct.argoCDCore in
  NoDup (new_ids a ++ new_ids b) ∧
  (∀ id, id ∈ new_ids a ++ new_ids b → id ∉ ids empty_cluster) ∧
  ∃ c1 r1 c2 r2,
    deploy a sample_now empty_cluster = (c1, inr r1) ∧
    deploy b (sample_now + 1) c1 = (c2, inr r2) ∧
    ids c2 = ids empty_cluster ++ new_ids a ++ new_ids b ∧
    dependencies c2 = dependencies empty_cluster ++ edges a ++ edges b ∧
    (valid_schedule empty_cluster (ids empty_cluster) → valid_schedule c2 (ids c2)).
Proof.
  intros a b.
  assert (NoDup (new_ids a ++ new_ids b)) as Hnd
    by (apply (bool_decide_unpack _); vm_compute; exact I).
  assert (∀ id, id ∈ new_ids a ++ new_ids b → id ∉ ids empty_cluster) as Hfresh
    by (intros id _; apply not_elem_of_nil).
  split; [exact Hnd|]. split; [exact Hfresh|].
  exact (deploy_compose a b sample_now (sample_now + 1) empty_cluster Hnd Hfresh).
Defined.



(** Witness for X14: ArgoCDAddOn with its default properties. *)
Lemma teardown_order_witness :
  let a := Helm ArgoCD_names default_helm in
  let c := (deploy a sample_now empty_cluster).1 in
  deploy a sample_now empty_cluster = (c, inr "argocd-cleanup-cr") ∧
  ∀ order, valid_teardown c order →
    (∀ i j x y, chain a !! i = Some x → chain a !! j = Some y → (i < j)%nat →
                before y x order) ∧
    (cleanup_enabled a = true →
     ∀ x, x ∈ chain a → before (registration_id a) x order).
Proof.
  intros a c.
  assert (deploy a sample_now empty_cluster = (c, inr "argocd-cleanup-cr")) as H
    by (vm_compute; reflexivity).
  split; [exact H|].
  exact (teardown_order a sample_now empty_cluster c _ H).
Defined.
